(** * http_request_utils.c: the request wire codec and the body-stream adapter

    A shallow embedding of [src/native/http_request_utils.c] of aws-crt-java.
    The C functions become functions in a small state monad over a [World]
    (the thread-local last error of aws-c-common and the Java side reached
    through JNI).  Out-parameters and objects mutated through a pointer are
    returned next to the C return value. *)

From Stdlib Require Import ZArith List Bool Lia.
From Stdlib Require Import Strings.Byte.
Import ListNotations.
Local Open Scope Z_scope.

Set Implicit Arguments.

(** ** Machine integers and bytes *)

(** [size_t] is taken as 64 bits wide and [int] as 4 bytes (LP64). *)
Definition SIZE_MAX : Z := 18446744073709551615.
Definition SIZE_MAX_HALF : Z := Z.shiftr SIZE_MAX 1.
Definition UINT32_MAX : Z := 4294967295.
Definition sizeof_int : Z := 4.

Definition to_size_t (x : Z) : Z := x mod (SIZE_MAX + 1).
Definition to_uint32 (x : Z) : Z := x mod (UINT32_MAX + 1).

Definition byte_to_Z (b : byte) : Z := Z.of_N (Byte.to_N b).

Definition byte_of_Z (z : Z) : byte :=
  match Byte.of_N (Z.to_N (z mod 256)) with
  | Some b => b
  | None => x00
  end.

(** The four bytes of a 32-bit value in network order (aws_hton32 followed
    by a byte-wise copy). *)
Definition be32_bytes (x : Z) : list byte :=
  [ byte_of_Z (x / 16777216); byte_of_Z (x / 65536);
    byte_of_Z (x / 256); byte_of_Z x ].

(** The 32-bit value of four bytes in network order (aws_ntoh32). *)
Definition be32_value (b0 b1 b2 b3 : byte) : Z :=
  byte_to_Z b0 * 16777216 + byte_to_Z b1 * 65536
  + byte_to_Z b2 * 256 + byte_to_Z b3.

(** ** Error codes and return values of aws-c-common *)

Inductive aws_error : Type :=
| AWS_ERROR_SUCCESS
| AWS_ERROR_OVERFLOW_DETECTED
| AWS_ERROR_INVALID_ARGUMENT
| AWS_ERROR_HTTP_INVALID_BODY_STREAM
| AWS_ERROR_HTTP_CALLBACK_FAILURE.

Definition AWS_OP_SUCCESS : Z := 0.
Definition AWS_OP_ERR : Z := -1.

(** ** The Java side, as seen through JNI *)

(** A non-NULL reference to a Java object; a possibly-NULL [jobject] of the
    source is an [option jobject]. *)
Definition jobject : Type := Z.

(** The method ids of [http_request_body_stream_properties]. *)
Inductive jmethodID : Type :=
| reset_position
| send_outgoing_body
| get_length.

Record jni_call : Type := {
  jc_receiver : jobject;
  jc_method : jmethodID
}.

(** What one invocation of a producer method does: the value it returns
    (a jboolean or a jlong, by the method), whether it leaves a Java
    exception pending, and the bytes it puts into the buffer it was given. *)
Record callback_outcome : Type := {
  returned_bool : bool;
  returned_long : Z;
  threw : bool;
  wrote : list byte
}.

(** A direct java.nio.ByteBuffer over native memory: the size of the region
    it wraps, its position marker and the bytes put so far. *)
Record ByteBuffer : Type := {
  bb_capacity : Z;
  bb_position : Z;
  bb_data : list byte
}.

Inductive JNIEnv : Type := jni_env.

(** The state outside the C objects.  The Java producer and the JVM are
    oracles indexed by the number of JNI interactions made so far. *)
Record World : Type := {
  last_error : aws_error;                  (* aws_last_error() *)
  jni_clock : nat;                         (* JNI interactions so far *)
  jni_attach : nat -> bool;                (* is a thread env available *)
  jni_callback : nat -> callback_outcome;  (* what the producer does *)
  jni_invoked : list jni_call;             (* calls made, newest first *)
  jni_exception : bool;                    (* a Java exception is pending *)
  jni_get_java_vm : Z;                     (* what GetJavaVM returns *)
  jni_new_global_ref : nat -> bool         (* does NewGlobalRef succeed *)
}.

Definition set_last_error (e : aws_error) (w : World) : World :=
  {| last_error := e; jni_clock := jni_clock w; jni_attach := jni_attach w;
     jni_callback := jni_callback w; jni_invoked := jni_invoked w;
     jni_exception := jni_exception w;
     jni_get_java_vm := jni_get_java_vm w;
     jni_new_global_ref := jni_new_global_ref w |}.

Definition tick (w : World) : World :=
  {| last_error := last_error w; jni_clock := S (jni_clock w);
     jni_attach := jni_attach w; jni_callback := jni_callback w;
     jni_invoked := jni_invoked w; jni_exception := jni_exception w;
     jni_get_java_vm := jni_get_java_vm w;
     jni_new_global_ref := jni_new_global_ref w |}.

Definition log_call (c : jni_call) (exn : bool) (w : World) : World :=
  {| last_error := last_error w; jni_clock := S (jni_clock w);
     jni_attach := jni_attach w; jni_callback := jni_callback w;
     jni_invoked := c :: jni_invoked w;
     jni_exception := jni_exception w || exn;
     jni_get_java_vm := jni_get_java_vm w;
     jni_new_global_ref := jni_new_global_ref w |}.

Definition set_exception (b : bool) (w : World) : World :=
  {| last_error := last_error w; jni_clock := jni_clock w;
     jni_attach := jni_attach w; jni_callback := jni_callback w;
     jni_invoked := jni_invoked w; jni_exception := b;
     jni_get_java_vm := jni_get_java_vm w;
     jni_new_global_ref := jni_new_global_ref w |}.

(** ** The monad of the embedding *)

(** A call returns a value and a new world, or the process is aborted by
    [AWS_FATAL_ASSERT], or the fuel given to a loop ran out. *)
Inductive outcome (A : Type) : Type :=
| Returned (a : A) (w : World)
| Aborted
| OutOfFuel.

Arguments Aborted {A}.
Arguments OutOfFuel {A}.

Definition M (A : Type) : Type := World -> outcome A.

Definition ret {A : Type} (a : A) : M A := fun w => Returned a w.

Definition bind {A B : Type} (m : M A) (k : A -> M B) : M B :=
  fun w =>
    match m w with
    | Returned a w' => k a w'
    | Aborted => Aborted
    | OutOfFuel => OutOfFuel
    end.

Notation "x <- c1 ;; c2" := (bind c1 (fun x => c2))
  (at level 61, c1 at next level, right associativity).
Notation "' pat <- c1 ;; c2" :=
  (bind c1 (fun x => match x with pat => c2 end))
  (at level 61, pat pattern, c1 at next level, right associativity).

Definition abort {A : Type} : M A := fun _ => Aborted.
Definition out_of_fuel {A : Type} : M A := fun _ => OutOfFuel.

Definition AWS_FATAL_ASSERT (cond : bool) : M unit :=
  if cond then ret tt else abort.

(** aws_raise_error: records the error for the thread, returns AWS_OP_ERR. *)
Definition aws_raise_error (e : aws_error) : M Z :=
  fun w => Returned AWS_OP_ERR (set_last_error e w).

(** ** JNI primitives used by the source *)

(** Modelled from the spec: the helpers of crt.c are not part of the source
    at hand.  aws_jni_acquire_thread_env acquires the execution context of
    the calling thread; it can fail (NULL) while the host runtime is shutting
    down.  aws_jni_release_thread_env gives it back. *)
Definition aws_jni_acquire_thread_env : M (option JNIEnv) :=
  fun w =>
    Returned (if jni_attach w (jni_clock w) then Some jni_env else None)
             (tick w).

Definition aws_jni_release_thread_env (env : JNIEnv) : M unit := ret tt.

(** Invoking a method of the producer through the JNI function table: the
    call is logged, the oracle says what happens. *)
Definition invoke (obj : jobject) (m : jmethodID) : M callback_outcome :=
  fun w =>
    let o := jni_callback w (jni_clock w) in
    Returned o (log_call {| jc_receiver := obj; jc_method := m |} (threw o) w).

Definition CallBooleanMethod (env : JNIEnv) (obj : jobject) (m : jmethodID)
  : M bool :=
  o <- invoke obj m ;; ret (returned_bool o).

Definition CallLongMethod (env : JNIEnv) (obj : jobject) (m : jmethodID)
  : M Z :=
  o <- invoke obj m ;; ret (returned_long o).

(** A put into a ByteBuffer stops at its capacity. *)
Definition put (b : ByteBuffer) (bytes : list byte) : ByteBuffer :=
  let room := Z.to_nat (bb_capacity b - bb_position b) in
  let taken := firstn room bytes in
  {| bb_capacity := bb_capacity b;
     bb_position := bb_position b + Z.of_nat (length taken);
     bb_data := bb_data b ++ taken |}.

(** CallBooleanMethod with one ByteBuffer argument; the buffer object as the
    callee left it is returned with the jboolean. *)
Definition CallBooleanMethod_ByteBuffer (env : JNIEnv) (obj : jobject)
    (m : jmethodID) (arg : ByteBuffer) : M (bool * ByteBuffer) :=
  o <- invoke obj m ;; ret (returned_bool o, put arg (wrote o)).

(** Modelled from the spec: aws_jni_check_and_clear_exception of crt.c
    tells whether a foreign exception is pending and clears it;
    aws_jni_throw_runtime_exception raises one for the Java caller. *)
Definition aws_jni_check_and_clear_exception (env : JNIEnv) : M bool :=
  fun w => Returned (jni_exception w) (set_exception false w).

Definition aws_jni_throw_runtime_exception (env : JNIEnv) : M unit :=
  fun w => Returned tt (set_exception true w).

(** Modelled from the spec: aws_jni_direct_byte_buffer_from_raw_ptr of crt.c
    makes the buffer view over a region of native memory of the given
    capacity, and aws_jni_byte_buffer_get_position reads the position marker
    through which the callback tells how many bytes it wrote. *)
Definition aws_jni_direct_byte_buffer_from_raw_ptr (env : JNIEnv)
    (capacity : Z) : ByteBuffer :=
  {| bb_capacity := capacity; bb_position := 0; bb_data := [] |}.

Definition aws_jni_byte_buffer_get_position (env : JNIEnv) (b : ByteBuffer)
  : Z := bb_position b.

Definition GetJavaVM (env : JNIEnv) : M Z :=
  fun w => Returned (jni_get_java_vm w) w.

(** NewGlobalRef: NULL when the JVM cannot make the reference. *)
Definition NewGlobalRef (env : JNIEnv) (obj : jobject) : M (option jobject) :=
  fun w =>
    Returned (if jni_new_global_ref w (jni_clock w) then Some obj else None)
             (tick w).

(** ** Byte cursors and byte buffers of aws-c-common

    The functions of this section belong to the aws-c-common library; they
    are written after its documented contract (byte_buf.h). *)

(** A cursor is the run of bytes it points at; its [len] is their number. *)
Definition aws_byte_cursor : Type := list byte.

Definition cursor_len (c : aws_byte_cursor) : Z := Z.of_nat (length c).

(** aws_byte_cursor_advance: when [len] bytes remain the first [len] bytes
    are returned and the cursor moves past them; otherwise, or when a length
    is above SIZE_MAX/2, the returned cursor is empty and the cursor stays.
    The result is the pair of the returned cursor and the cursor after. *)
Definition aws_byte_cursor_advance (cursor : aws_byte_cursor) (len : Z)
  : aws_byte_cursor * aws_byte_cursor :=
  if (SIZE_MAX_HALF <? cursor_len cursor) || (SIZE_MAX_HALF <? len)
     || (cursor_len cursor <? len)
  then ([], cursor)
  else (firstn (Z.to_nat len) cursor, skipn (Z.to_nat len) cursor).

(** aws_byte_cursor_read_be32: [None] is the C [false]; the cursor then
    stays where it was. *)
Definition aws_byte_cursor_read_be32 (cur : aws_byte_cursor)
  : option (Z * aws_byte_cursor) :=
  if (SIZE_MAX_HALF <? cursor_len cur) || (cursor_len cur <? 4) then None
  else
    match cur with
    | b0 :: b1 :: b2 :: b3 :: rest => Some (be32_value b0 b1 b2 b3, rest)
    | _ => None
    end.

(** A byte buffer: the [len] bytes written so far and the capacity of the
    allocation.  Memory past [len] cannot be seen through the buffer and is
    not represented. *)
Record aws_byte_buf : Type := {
  buffer : list byte;
  capacity : Z
}.

Definition buf_len (b : aws_byte_buf) : Z := Z.of_nat (length (buffer b)).

Definition aws_byte_buf_init (cap : Z) : aws_byte_buf :=
  {| buffer := []; capacity := cap |}.

(** aws_byte_buf_reserve_relative: fails when [len + additional] overflows;
    growing the allocation itself is taken to succeed. *)
Definition aws_byte_buf_reserve_relative (buf : aws_byte_buf)
    (additional_length : Z) : M (Z * aws_byte_buf) :=
  let requested_capacity := buf_len buf + additional_length in
  if SIZE_MAX <? requested_capacity then
    r <- aws_raise_error AWS_ERROR_OVERFLOW_DETECTED ;; ret (r, buf)
  else if requested_capacity <=? capacity buf then ret (AWS_OP_SUCCESS, buf)
  else ret (AWS_OP_SUCCESS,
            {| buffer := buffer buf; capacity := requested_capacity |}).

(** aws_byte_buf_write: writes only when the bytes fit the capacity. *)
Definition aws_byte_buf_write (buf : aws_byte_buf) (src : list byte)
  : bool * aws_byte_buf :=
  let len := Z.of_nat (length src) in
  if len =? 0 then (true, buf)
  else if (SIZE_MAX_HALF <? buf_len buf) || (SIZE_MAX_HALF <? len)
          || (capacity buf <? buf_len buf + len)
  then (false, buf)
  else (true, {| buffer := buffer buf ++ src; capacity := capacity buf |}).

Definition aws_byte_buf_write_be32 (buf : aws_byte_buf) (x : Z)
  : bool * aws_byte_buf :=
  aws_byte_buf_write buf (be32_bytes x).

Definition aws_byte_buf_write_from_whole_cursor (buf : aws_byte_buf)
    (src : aws_byte_cursor) : bool * aws_byte_buf :=
  aws_byte_buf_write buf src.

(** ** The body-stream adapter *)

Record aws_http_request_body_stream_impl : Type := {
  http_request_body_stream : option jobject;
  body_done : bool;
  is_valid : bool
}.

Definition set_body_done (b : bool) (impl : aws_http_request_body_stream_impl)
  : aws_http_request_body_stream_impl :=
  {| http_request_body_stream := http_request_body_stream impl;
     body_done := b;
     is_valid := is_valid impl |}.

Definition set_is_valid (b : bool) (impl : aws_http_request_body_stream_impl)
  : aws_http_request_body_stream_impl :=
  {| http_request_body_stream := http_request_body_stream impl;
     body_done := body_done impl;
     is_valid := b |}.

Inductive aws_stream_seek_basis : Type :=
| AWS_SSB_BEGIN
| AWS_SSB_END.

Definition is_begin (basis : aws_stream_seek_basis) : bool :=
  match basis with AWS_SSB_BEGIN => true | AWS_SSB_END => false end.

Record aws_stream_status : Type := {
  is_end_of_stream : bool;
  status_is_valid : bool
}.

(** s_aws_input_stream_seek (source lines 29-68).  The adapter is returned
    with the C result, as seek writes to it through the pointer. *)
Definition s_aws_input_stream_seek (impl : aws_http_request_body_stream_impl)
    (offset : Z) (basis : aws_stream_seek_basis)
  : M (Z * aws_http_request_body_stream_impl) :=
  (* the end of the function: body_done is cleared on success *)
  let finish (result : Z) :=
    ret (result,
         if result =? AWS_OP_SUCCESS then set_body_done false impl else impl) in
  if negb (is_valid impl) then
    r <- aws_raise_error AWS_ERROR_HTTP_INVALID_BODY_STREAM ;; ret (r, impl)
  else
    match http_request_body_stream impl with
    | Some stream =>
        if negb (is_begin basis) || negb (offset =? 0) then
          ret (AWS_OP_ERR, impl)
        else
          env <- aws_jni_acquire_thread_env ;;
          match env with
          | None => ret (AWS_OP_ERR, impl)
          | Some env =>
              ok <- CallBooleanMethod env stream reset_position ;;
              result <- (if negb ok
                         then aws_raise_error AWS_ERROR_HTTP_CALLBACK_FAILURE
                         else ret AWS_OP_SUCCESS) ;;
              exn <- aws_jni_check_and_clear_exception env ;;
              result <- (if exn
                         then aws_raise_error AWS_ERROR_HTTP_CALLBACK_FAILURE
                         else ret result) ;;
              _ <- aws_jni_release_thread_env env ;;
              finish result
          end
    | None => finish AWS_OP_SUCCESS
    end.

(** s_aws_input_stream_read (source lines 70-115).  The callback is given a
    direct buffer over the free part of [dest]; what it put there counts
    only once [dest->len] is moved. *)
Definition s_aws_input_stream_read (impl : aws_http_request_body_stream_impl)
    (dest : aws_byte_buf)
  : M (Z * aws_http_request_body_stream_impl * aws_byte_buf) :=
  if negb (is_valid impl) then
    r <- aws_raise_error AWS_ERROR_HTTP_INVALID_BODY_STREAM ;;
    ret (r, impl, dest)
  else
    match http_request_body_stream impl with
    | None => ret (AWS_OP_SUCCESS, set_body_done true impl, dest)
    | Some stream =>
        if body_done impl then ret (AWS_OP_SUCCESS, impl, dest)
        else
          env <- aws_jni_acquire_thread_env ;;
          match env with
          | None => ret (AWS_OP_ERR, impl, dest)
          | Some env =>
              let out_remaining := to_size_t (capacity dest - buf_len dest) in
              let direct_buffer :=
                aws_jni_direct_byte_buffer_from_raw_ptr env out_remaining in
              '(done, direct_buffer) <-
                CallBooleanMethod_ByteBuffer env stream send_outgoing_body
                                             direct_buffer ;;
              let impl := set_body_done done impl in
              exn <- aws_jni_check_and_clear_exception env ;;
              '(result, dest) <-
                (if exn then
                   r <- aws_raise_error AWS_ERROR_HTTP_CALLBACK_FAILURE ;;
                   ret (r, dest)
                 else
                   let amt_written :=
                     aws_jni_byte_buffer_get_position env direct_buffer in
                   ret (AWS_OP_SUCCESS,
                        {| buffer := buffer dest
                                     ++ firstn (Z.to_nat amt_written)
                                               (bb_data direct_buffer);
                           capacity := capacity dest |})) ;;
              _ <- aws_jni_release_thread_env env ;;
              ret (result, impl, dest)
          end
    end.

(** s_aws_input_stream_get_status (source lines 117-125). *)
Definition s_aws_input_stream_get_status
    (impl : aws_http_request_body_stream_impl) : M (Z * aws_stream_status) :=
  ret (AWS_OP_SUCCESS,
       {| is_end_of_stream := body_done impl;
          status_is_valid := is_valid impl |}).

(** s_aws_input_stream_get_length (source lines 127-156).  [length] is the
    out-parameter: [None] for a NULL pointer, otherwise the value it holds;
    the value it holds afterwards is returned. *)
Definition s_aws_input_stream_get_length
    (impl : aws_http_request_body_stream_impl) (length : option Z)
  : M (Z * option Z) :=
  _ <- AWS_FATAL_ASSERT (match length with Some _ => true | None => false end) ;;
  match http_request_body_stream impl with
  | Some stream =>
      env <- aws_jni_acquire_thread_env ;;
      match env with
      | None => ret (AWS_OP_ERR, length)
      | Some env =>
          l <- CallLongMethod env stream get_length ;;
          exn <- aws_jni_check_and_clear_exception env ;;
          result <- (if exn
                     then aws_raise_error AWS_ERROR_HTTP_CALLBACK_FAILURE
                     else ret AWS_OP_SUCCESS) ;;
          _ <- aws_jni_release_thread_env env ;;
          ret (result, Some l)
      end
  | None => ret (AWS_OP_ERR, length)
  end.

(** DeleteGlobalRef asks the JVM nothing and changes nothing the world
    records. *)
Definition DeleteGlobalRef (env : JNIEnv) (obj : jobject) : M unit := ret tt.

(** What a destroyed adapter gave back: the global reference deleted, if
    any, and whether its memory was released. *)
Record released : Type := {
  global_ref_deleted : option jobject;
  memory_released : bool
}.

(** s_aws_input_stream_destroy (source lines 158-175).  Without a thread env
    the function returns at once and gives nothing back. *)
Definition s_aws_input_stream_destroy
    (impl : aws_http_request_body_stream_impl) : M released :=
  env <- aws_jni_acquire_thread_env ;;
  match env with
  | None => ret {| global_ref_deleted := None; memory_released := false |}
  | Some env =>
      _ <- match http_request_body_stream impl with
           | Some stream => DeleteGlobalRef env stream
           | None => ret tt
           end ;;
      _ <- aws_jni_release_thread_env env ;;
      (* aws_mem_release *)
      ret {| global_ref_deleted := http_request_body_stream impl;
             memory_released := true |}
  end.

(** aws_input_stream_new_from_java_http_request_body_stream (source lines
    184-215): the new adapter, or [None] for the NULL returned on error.  At
    on_error the adapter has its one reference, from aws_ref_count_init, so
    that aws_input_stream_release runs the destructor. *)
Definition aws_input_stream_new_from_java_http_request_body_stream
    (env : JNIEnv) (http_request_body_stream : option jobject)
  : M (option aws_http_request_body_stream_impl) :=
  (* aws_mem_calloc: every field starts as zero *)
  let impl := {| http_request_body_stream := None;
                 body_done := false; is_valid := false |} in
  jvmresult <- GetJavaVM env ;;
  _ <- AWS_FATAL_ASSERT (jvmresult =? 0) ;;
  let impl := {| http_request_body_stream := None;
                 body_done := body_done impl; is_valid := true |} in
  match http_request_body_stream with
  | Some stream =>
      ref <- NewGlobalRef env stream ;;
      match ref with
      | None =>
          _ <- s_aws_input_stream_destroy
                 {| http_request_body_stream := ref;
                    body_done := body_done impl;
                    is_valid := is_valid impl |} ;;
          ret None
      | Some _ =>
          ret (Some {| http_request_body_stream := ref;
                       body_done := body_done impl;
                       is_valid := is_valid impl |})
      end
  | None => ret (Some (set_body_done true impl))
  end.

(** ** The request object of the HTTP engine *)

Inductive aws_http_version : Type :=
| AWS_HTTP_VERSION_UNKNOWN
| AWS_HTTP_VERSION_1_0
| AWS_HTTP_VERSION_1_1
| AWS_HTTP_VERSION_2.

(** The value of an enumerator, as it is written to the frame. *)
Definition version_code (v : aws_http_version) : Z :=
  match v with
  | AWS_HTTP_VERSION_UNKNOWN => 0
  | AWS_HTTP_VERSION_1_0 => 1
  | AWS_HTTP_VERSION_1_1 => 2
  | AWS_HTTP_VERSION_2 => 3
  end.

Record aws_http_header : Type := {
  name : aws_byte_cursor;
  value : aws_byte_cursor
}.

Definition aws_http_headers : Type := list aws_http_header.

(** Modelled from the spec: the request object belongs to the HTTP engine
    (aws-c-http), which is not part of the source.  A request owns its
    protocol version, fixed at creation, a method, a path, an ordered header
    set that keeps duplicates and insertion order, and an optional body
    stream. *)
Record aws_http_message : Type := {
  http_version : aws_http_version;
  request_method : aws_byte_cursor;
  request_path : aws_byte_cursor;
  headers : aws_http_headers;
  body_stream : option aws_http_request_body_stream_impl
}.

Definition aws_http_message_get_protocol_version (m : aws_http_message)
  : aws_http_version := http_version m.

(** Modelled from the spec: the accessors of the engine's request object.
    Each setter stores its argument and reports success, each getter reports
    success with what is stored; a header is added at the end of the set. *)
Definition aws_http_message_set_request_method (m : aws_http_message)
    (method : aws_byte_cursor) : Z * aws_http_message :=
  (AWS_OP_SUCCESS,
   {| http_version := http_version m; request_method := method;
      request_path := request_path m; headers := headers m;
      body_stream := body_stream m |}).

Definition aws_http_message_set_request_path (m : aws_http_message)
    (path : aws_byte_cursor) : Z * aws_http_message :=
  (AWS_OP_SUCCESS,
   {| http_version := http_version m; request_method := request_method m;
      request_path := path; headers := headers m;
      body_stream := body_stream m |}).

Definition aws_http_message_get_request_method (m : aws_http_message)
  : Z * aws_byte_cursor := (AWS_OP_SUCCESS, request_method m).

Definition aws_http_message_get_request_path (m : aws_http_message)
  : Z * aws_byte_cursor := (AWS_OP_SUCCESS, request_path m).

Definition aws_http_headers_add_header (hs : aws_http_headers)
    (h : aws_http_header) : Z * aws_http_headers :=
  (AWS_OP_SUCCESS, hs ++ [h]).

Definition set_headers (hs : aws_http_headers) (m : aws_http_message)
  : aws_http_message :=
  {| http_version := http_version m; request_method := request_method m;
     request_path := request_path m; headers := hs;
     body_stream := body_stream m |}.

Definition aws_http_message_add_header (m : aws_http_message)
    (h : aws_http_header) : Z * aws_http_message :=
  let '(r, hs) := aws_http_headers_add_header (headers m) h in
  (r, set_headers hs m).

Definition aws_http_headers_clear (hs : aws_http_headers) : aws_http_headers :=
  [].

Definition aws_http_message_get_header_count (m : aws_http_message) : nat :=
  length (headers m).

Definition empty_header : aws_http_header := {| name := []; value := [] |}.

(** aws_http_headers_get_index: an error past the end of the set. *)
Definition aws_http_headers_get_index (hs : aws_http_headers) (i : nat)
  : Z * aws_http_header :=
  match nth_error hs i with
  | Some h => (AWS_OP_SUCCESS, h)
  | None => (AWS_OP_ERR, empty_header)
  end.

Definition aws_http_message_set_body_stream (m : aws_http_message)
    (s : option aws_http_request_body_stream_impl) : aws_http_message :=
  {| http_version := http_version m; request_method := request_method m;
     request_path := request_path m; headers := headers m;
     body_stream := s |}.

Definition aws_http_message_get_headers (m : aws_http_message)
  : aws_http_headers := headers m.

Definition is_http2 (v : aws_http_version) : bool :=
  version_code v =? version_code AWS_HTTP_VERSION_2.

(** ** Marshalling *)

(** s_marshal_http_header_to_buffer (source lines 217-230).  The results of
    the four writes are dropped, as in the source. *)
Definition s_marshal_http_header_to_buffer (buf : aws_byte_buf)
    (name value : aws_byte_cursor) : M (Z * aws_byte_buf) :=
  '(r, buf) <- aws_byte_buf_reserve_relative buf
                 (to_size_t (sizeof_int + sizeof_int
                             + cursor_len name + cursor_len value)) ;;
  if negb (r =? 0) then ret (AWS_OP_ERR, buf)
  else
    let '(_, buf) := aws_byte_buf_write_be32 buf (to_uint32 (cursor_len name)) in
    let '(_, buf) := aws_byte_buf_write_from_whole_cursor buf name in
    let '(_, buf) := aws_byte_buf_write_be32 buf (to_uint32 (cursor_len value)) in
    let '(_, buf) := aws_byte_buf_write_from_whole_cursor buf value in
    ret (AWS_OP_SUCCESS, buf).

(** aws_marshal_http_headers_to_dynamic_buffer (source lines 232-243); the
    list is [header_array] from index i on. *)
Fixpoint aws_marshal_http_headers_to_dynamic_buffer (buf : aws_byte_buf)
    (header_array : list aws_http_header) : M (Z * aws_byte_buf) :=
  match header_array with
  | [] => ret (AWS_OP_SUCCESS, buf)
  | h :: rest =>
      '(r, buf) <- s_marshal_http_header_to_buffer buf (name h) (value h) ;;
      if negb (r =? 0) then ret (AWS_OP_ERR, buf)
      else aws_marshal_http_headers_to_dynamic_buffer buf rest
  end.

(** The loop [for (i = 0; i < header_count; ++i)] of
    s_marshall_http_request, with [remaining = header_count - i]. *)
Fixpoint s_marshall_http_request_headers (remaining : nat) (i : nat)
    (headers : aws_http_headers) (request_buf : aws_byte_buf)
  : M (Z * aws_byte_buf) :=
  match remaining with
  | O => ret (AWS_OP_SUCCESS, request_buf)
  | S remaining =>
      let '(rc, header) := aws_http_headers_get_index headers i in
      _ <- AWS_FATAL_ASSERT (rc =? 0) ;;
      '(r, request_buf) <-
        s_marshal_http_header_to_buffer request_buf (name header)
                                        (value header) ;;
      if negb (r =? 0) then ret (AWS_OP_ERR, request_buf)
      else s_marshall_http_request_headers remaining (S i) headers request_buf
  end.

(** s_marshall_http_request (source lines 477-512). *)
Definition s_marshall_http_request (message : aws_http_message)
    (request_buf : aws_byte_buf) : M (Z * aws_byte_buf) :=
  let '(rc, method) := aws_http_message_get_request_method message in
  _ <- AWS_FATAL_ASSERT (rc =? 0) ;;
  let '(rc, path) := aws_http_message_get_request_path message in
  _ <- AWS_FATAL_ASSERT (rc =? 0) ;;
  '(r, request_buf) <- aws_byte_buf_reserve_relative request_buf
                         (to_size_t (sizeof_int + sizeof_int + sizeof_int
                                     + cursor_len method + cursor_len path)) ;;
  if negb (r =? 0) then ret (AWS_OP_ERR, request_buf)
  else
    let '(_, request_buf) :=
      aws_byte_buf_write_be32 request_buf
        (to_uint32 (version_code
                      (aws_http_message_get_protocol_version message))) in
    let '(_, request_buf) :=
      aws_byte_buf_write_be32 request_buf (to_uint32 (cursor_len method)) in
    let '(_, request_buf) :=
      aws_byte_buf_write_from_whole_cursor request_buf method in
    let '(_, request_buf) :=
      aws_byte_buf_write_be32 request_buf (to_uint32 (cursor_len path)) in
    let '(_, request_buf) :=
      aws_byte_buf_write_from_whole_cursor request_buf path in
    let headers := aws_http_message_get_headers message in
    let header_count := aws_http_message_get_header_count message in
    s_marshall_http_request_headers header_count 0 headers request_buf.

(** ** Unmarshalling *)

(** s_unmarshal_http_request_to_get_version (source lines 258-264): the
    version read, as the integer value of the enumeration (0 when it cannot
    be read), and the cursor after it. *)
Definition s_unmarshal_http_request_to_get_version
    (request_blob : aws_byte_cursor) : M (Z * aws_byte_cursor) :=
  match aws_byte_cursor_read_be32 request_blob with
  | Some (version, request_blob) => ret (version, request_blob)
  | None =>
      _ <- aws_raise_error AWS_ERROR_INVALID_ARGUMENT ;;
      ret (0, request_blob)
  end.

(** The loop [while (request_blob->len)] of
    s_unmarshal_http_request_without_version. *)
Fixpoint s_unmarshal_http_request_headers (fuel : nat)
    (message : aws_http_message) (request_blob : aws_byte_cursor)
  : M (Z * aws_http_message * aws_byte_cursor) :=
  if cursor_len request_blob =? 0 then
    ret (AWS_OP_SUCCESS, message, request_blob)
  else
    match fuel with
    | O => out_of_fuel
    | S fuel =>
        match aws_byte_cursor_read_be32 request_blob with
        | None =>
            r <- aws_raise_error AWS_ERROR_INVALID_ARGUMENT ;;
            ret (r, message, request_blob)
        | Some (field_len, request_blob) =>
            let '(header_name, request_blob) :=
              aws_byte_cursor_advance request_blob field_len in
            match aws_byte_cursor_read_be32 request_blob with
            | None =>
                r <- aws_raise_error AWS_ERROR_INVALID_ARGUMENT ;;
                ret (r, message, request_blob)
            | Some (field_len, request_blob) =>
                let '(header_value, request_blob) :=
                  aws_byte_cursor_advance request_blob field_len in
                let header :=
                  {| name := header_name; value := header_value |} in
                let '(_, message) :=
                  aws_http_message_add_header message header in
                s_unmarshal_http_request_headers fuel message request_blob
            end
        end
    end.

(** s_unmarshal_http_request_without_version (source lines 266-324).  The
    request and the cursor are returned with the C result. *)
Definition s_unmarshal_http_request_without_version
    (message : aws_http_message) (request_blob : aws_byte_cursor)
  : M (Z * aws_http_message * aws_byte_cursor) :=
  (* every iteration of the loop takes bytes off the cursor *)
  let header_loop message request_blob :=
    s_unmarshal_http_request_headers (S (length request_blob))
                                     message request_blob in
  if negb (is_http2 (aws_http_message_get_protocol_version message)) then
    match aws_byte_cursor_read_be32 request_blob with
    | None =>
        r <- aws_raise_error AWS_ERROR_INVALID_ARGUMENT ;;
        ret (r, message, request_blob)
    | Some (field_len, request_blob) =>
        let '(method, request_blob) :=
          aws_byte_cursor_advance request_blob field_len in
        let '(result, message) :=
          aws_http_message_set_request_method message method in
        if negb (result =? AWS_OP_SUCCESS) then
          ret (AWS_OP_ERR, message, request_blob)
        else
          match aws_byte_cursor_read_be32 request_blob with
          | None =>
              r <- aws_raise_error AWS_ERROR_INVALID_ARGUMENT ;;
              ret (r, message, request_blob)
          | Some (field_len, request_blob) =>
              let '(path, request_blob) :=
                aws_byte_cursor_advance request_blob field_len in
              let '(result, message) :=
                aws_http_message_set_request_path message path in
              if negb (result =? AWS_OP_SUCCESS) then
                ret (AWS_OP_ERR, message, request_blob)
              else header_loop message request_blob
          end
    end
  else
    match aws_byte_cursor_read_be32 request_blob with
    | None =>
        r <- aws_raise_error AWS_ERROR_INVALID_ARGUMENT ;;
        ret (r, message, request_blob)
    | Some (field_len, request_blob) =>
        if negb (field_len =? 0) then
          r <- aws_raise_error AWS_ERROR_INVALID_ARGUMENT ;;
          ret (r, message, request_blob)
        else
          match aws_byte_cursor_read_be32 request_blob with
          | None =>
              r <- aws_raise_error AWS_ERROR_INVALID_ARGUMENT ;;
              ret (r, message, request_blob)
          | Some (field_len, request_blob) =>
              if negb (field_len =? 0) then
                r <- aws_raise_error AWS_ERROR_INVALID_ARGUMENT ;;
                ret (r, message, request_blob)
              else header_loop message request_blob
          end
    end.

(** The loop [while (request_blob->len)] of s_unmarshal_http_headers. *)
Fixpoint s_unmarshal_http_headers_loop (fuel : nat)
    (headers : aws_http_headers) (request_blob : aws_byte_cursor)
  : M (Z * aws_http_headers * aws_byte_cursor) :=
  if cursor_len request_blob =? 0 then
    ret (AWS_OP_SUCCESS, headers, request_blob)
  else
    match fuel with
    | O => out_of_fuel
    | S fuel =>
        match aws_byte_cursor_read_be32 request_blob with
        | None =>
            r <- aws_raise_error AWS_ERROR_INVALID_ARGUMENT ;;
            ret (r, headers, request_blob)
        | Some (field_len, request_blob) =>
            let '(header_name, request_blob) :=
              aws_byte_cursor_advance request_blob field_len in
            match aws_byte_cursor_read_be32 request_blob with
            | None =>
                r <- aws_raise_error AWS_ERROR_INVALID_ARGUMENT ;;
                ret (r, headers, request_blob)
            | Some (field_len, request_blob) =>
                let '(header_value, request_blob) :=
                  aws_byte_cursor_advance request_blob field_len in
                let header :=
                  {| name := header_name; value := header_value |} in
                let '(_, headers) :=
                  aws_http_headers_add_header headers header in
                s_unmarshal_http_headers_loop fuel headers request_blob
            end
        end
    end.

(** s_unmarshal_http_headers (source lines 326-349). *)
Definition s_unmarshal_http_headers (headers : aws_http_headers)
    (request_blob : aws_byte_cursor)
  : M (Z * aws_http_headers * aws_byte_cursor) :=
  s_unmarshal_http_headers_loop (S (length request_blob)) headers request_blob.

(** aws_apply_java_http_request_changes_to_native_request (source lines
    351-394).  [marshalled_request] is the content of the Java byte array. *)
Definition aws_apply_java_http_request_changes_to_native_request
    (env : JNIEnv) (marshalled_request : list byte)
    (jni_body_stream : option jobject) (message : aws_http_message)
  : M (Z * aws_http_message) :=
  let headers := aws_http_message_get_headers message in
  let message := set_headers (aws_http_headers_clear headers) message in
  let marshalled_cur : aws_byte_cursor := marshalled_request in
  '(version, marshalled_cur) <-
    s_unmarshal_http_request_to_get_version marshalled_cur ;;
  '(result, message) <-
    (if negb (version
              =? version_code (aws_http_message_get_protocol_version message))
     then
       r <- aws_raise_error AWS_ERROR_INVALID_ARGUMENT ;; ret (r, message)
     else
       '(r, message, _) <-
         s_unmarshal_http_request_without_version message marshalled_cur ;;
       ret (r, message)) ;;
  if negb (result =? 0) then
    _ <- aws_jni_throw_runtime_exception env ;;
    ret (result, message)
  else
    match jni_body_stream with
    | Some stream =>
        body_stream <-
          aws_input_stream_new_from_java_http_request_body_stream
            env (Some stream) ;;
        ret (result, aws_http_message_set_body_stream message body_stream)
    | None => ret (result, message)
    end.

(** aws_http_headers_new_from_java_http_headers (source lines 450-475): the
    new header set, or [None] for the NULL returned on error. *)
Definition aws_http_headers_new_from_java_http_headers (env : JNIEnv)
    (marshalled_headers : list byte) : M (option aws_http_headers) :=
  let headers : aws_http_headers := [] in
  let marshalled_cur : aws_byte_cursor := marshalled_headers in
  '(result, headers, _) <- s_unmarshal_http_headers headers marshalled_cur ;;
  if negb (result =? 0) then
    _ <- aws_jni_throw_runtime_exception env ;;
    ret None
  else ret (Some headers).

(** ** Drivers and sample data *)

(** [n] reads in a row on the same adapter and destination; the results of
    the reads are collected, oldest first. *)
Fixpoint read_repeatedly (n : nat) (impl : aws_http_request_body_stream_impl)
    (dest : aws_byte_buf)
  : M (list Z * aws_http_request_body_stream_impl * aws_byte_buf) :=
  match n with
  | O => ret ([], impl, dest)
  | S n =>
      '(r, impl, dest) <- s_aws_input_stream_read impl dest ;;
      '(rs, impl, dest) <- read_repeatedly n impl dest ;;
      ret (r :: rs, impl, dest)
  end.

(** A producer that reports the end of the body and writes nothing. *)
Definition quiet_producer : callback_outcome :=
  {| returned_bool := true; returned_long := 0; threw := false; wrote := [] |}.

(** A producer whose callback raises after writing two bytes. *)
Definition raising_producer : callback_outcome :=
  {| returned_bool := true; returned_long := 7; threw := true;
     wrote := ["h"; "i"]%byte |}.

(** A producer that refuses (returns false) without raising. *)
Definition refusing_producer : callback_outcome :=
  {| returned_bool := false; returned_long := 0; threw := false; wrote := [] |}.

Definition world_with (p : callback_outcome) : World :=
  {| last_error := AWS_ERROR_SUCCESS; jni_clock := 0;
     jni_attach := fun _ => true; jni_callback := fun _ => p;
     jni_invoked := []; jni_exception := false;
     jni_get_java_vm := 0; jni_new_global_ref := fun _ => true |}.

Definition world0 : World := world_with quiet_producer.

Definition sample_stream : jobject := 42.

Definition sample_impl (producer : option jobject) (done valid : bool)
  : aws_http_request_body_stream_impl :=
  {| http_request_body_stream := producer; body_done := done;
     is_valid := valid |}.

Definition sample_dest : aws_byte_buf :=
  {| buffer := ["a"]%byte; capacity := 16 |}.

(** ** The wire format, as the spec gives it *)

(** LP := length:u32 bytes[length] *)
Definition wire_lp (field : list byte) : list byte :=
  be32_bytes (cursor_len field) ++ field.

(** header_pair := name:LP value:LP *)
Definition wire_header (h : aws_http_header) : list byte :=
  wire_lp (name h) ++ wire_lp (value h).

Definition wire_headers (hs : list aws_http_header) : list byte :=
  flat_map wire_header hs.

(** Request frame := version:u32 method:LP path:LP header_pair* *)
Definition wire_request (m : aws_http_message) : list byte :=
  be32_bytes (version_code (http_version m))
  ++ wire_lp (request_method m) ++ wire_lp (request_path m)
  ++ wire_headers (headers m).

(** A field whose length a 32-bit prefix can carry. *)
Definition fits_uint32 (field : list byte) : bool :=
  cursor_len field <=? UINT32_MAX.

Definition header_fits (h : aws_http_header) : bool :=
  fits_uint32 (name h) && fits_uint32 (value h).

(** A request every field of which has a length below 2^32 and whose frame
    is no longer than SIZE_MAX/2 bytes. *)
Definition request_fits (m : aws_http_message) : bool :=
  fits_uint32 (request_method m) && fits_uint32 (request_path m)
  && forallb header_fits (headers m)
  && (cursor_len (wire_request m) <=? SIZE_MAX_HALF).

(** For HTTP/2 the method and path of the frame are empty. *)
Definition http2_fields_empty (m : aws_http_message) : bool :=
  if is_http2 (http_version m)
  then (cursor_len (request_method m) =? 0) && (cursor_len (request_path m) =? 0)
  else true.

(** What decoding the frame of [r] into [dst] is to give: the fields of [r]
    that travel in the frame, and the body stream [dst] had. *)
Definition decoded_into (dst r : aws_http_message) : aws_http_message :=
  {| http_version := http_version r; request_method := request_method r;
     request_path := request_path r; headers := headers r;
     body_stream := body_stream dst |}.

Definition sample_request (v : aws_http_version) : aws_http_message :=
  {| http_version := v;
     request_method := ["G"; "E"; "T"]%byte;
     request_path := ["/"; "a"]%byte;
     headers := [ {| name := ["H"; "o"; "s"; "t"]%byte; value := ["x"]%byte |};
                  {| name := ["X"]%byte; value := [] |};
                  {| name := []; value := [xff; x00]%byte |} ];
     body_stream := None |}.

Definition sample_http2_request : aws_http_message :=
  {| http_version := AWS_HTTP_VERSION_2;
     request_method := []; request_path := [];
     headers := [ {| name := ["a"]%byte; value := ["b"]%byte |} ];
     body_stream := None |}.

(** ** Building a request from a frame, and a Java request from a request *)

(** Modelled from the spec: the two constructors of the engine's request
    object (aws-c-http) are not part of the source.  A fresh request has no
    method, no path, no header and no body stream; the HTTP/2 kind reports
    version 2, the HTTP/1 kind the version [http1], which is left as a
    parameter. *)
Definition aws_http2_message_new_request : aws_http_message :=
  {| http_version := AWS_HTTP_VERSION_2; request_method := [];
     request_path := []; headers := []; body_stream := None |}.

Definition aws_http_message_new_request (http1 : aws_http_version)
  : aws_http_message :=
  {| http_version := http1; request_method := [];
     request_path := []; headers := []; body_stream := None |}.

(** aws_http_request_new_from_java_http_request (source lines 396-448): the
    new request, or [None] for the NULL returned after on_error, where the
    request built so far is destroyed. *)
Definition aws_http_request_new_from_java_http_request
    (http1 : aws_http_version) (env : JNIEnv) (marshalled_request : list byte)
    (jni_body_stream : option jobject) : M (option aws_http_message) :=
  let marshalled_cur : aws_byte_cursor := marshalled_request in
  '(version, marshalled_cur) <-
    s_unmarshal_http_request_to_get_version marshalled_cur ;;
  let request :=
    if version =? version_code AWS_HTTP_VERSION_2
    then aws_http2_message_new_request
    else aws_http_message_new_request http1 in
  '(result, request) <-
    (if negb (version
              =? version_code (aws_http_message_get_protocol_version request))
     then
       r <- aws_raise_error AWS_ERROR_INVALID_ARGUMENT ;; ret (r, request)
     else
       '(r, request, _) <-
         s_unmarshal_http_request_without_version request marshalled_cur ;;
       ret (r, request)) ;;
  if negb (result =? 0) then
    _ <- aws_jni_throw_runtime_exception env ;;
    ret None
  else
    match jni_body_stream with
    | Some stream =>
        body_stream <-
          aws_input_stream_new_from_java_http_request_body_stream
            env (Some stream) ;;
        match body_stream with
        | None =>
            _ <- aws_jni_throw_runtime_exception env ;;
            ret None
        | Some _ =>
            ret (Some (aws_http_message_set_body_stream request body_stream))
        end
    | None => ret (Some request)
    end.

(** The Java HttpRequest made by the constructor the source calls: the
    marshalled bytes and the body stream it was given. *)
Record HttpRequest : Type := {
  marshalled : list byte;
  java_body_stream : option jobject
}.

(** NewObject on http_request_class with the (ByteBuffer, body stream)
    constructor.  [memory] is the native memory the buffer is a view of.  The
    oracle says whether the constructor raises, in which case no object comes
    back. *)
Definition NewObject_HttpRequest (env : JNIEnv) (jni_request_blob : ByteBuffer)
    (memory : list byte) (request_body_stream : option jobject)
  : M (option HttpRequest) :=
  fun w =>
    let o := jni_callback w (jni_clock w) in
    Returned
      (if threw o then None
       else Some {| marshalled :=
                      firstn (Z.to_nat (bb_capacity jni_request_blob)) memory;
                    java_body_stream := request_body_stream |})
      (set_exception (jni_exception w || threw o) (tick w)).

(** aws_java_http_request_from_native (source lines 514-553): the Java
    request, or [None] for NULL.  aws_byte_buf_init is taken to succeed, as
    every allocation is. *)
Definition aws_java_http_request_from_native (env : JNIEnv)
    (message : aws_http_message) (request_body_stream : option jobject)
  : M (option HttpRequest) :=
  let '(rc, marshaling_buf) := (AWS_OP_SUCCESS, aws_byte_buf_init 1024) in
  if negb (rc =? 0) then
    _ <- aws_jni_throw_runtime_exception env ;;
    ret None
  else
    '(r, marshaling_buf) <- s_marshall_http_request message marshaling_buf ;;
    if negb (r =? 0) then
      _ <- aws_jni_throw_runtime_exception env ;;
      ret None
    else
      let jni_request_blob :=
        aws_jni_direct_byte_buffer_from_raw_ptr env (buf_len marshaling_buf) in
      j_request <- NewObject_HttpRequest env jni_request_blob
                     (buffer marshaling_buf) request_body_stream ;;
      exn <- aws_jni_check_and_clear_exception env ;;
      _ <- (if exn
            then aws_raise_error AWS_ERROR_HTTP_CALLBACK_FAILURE
            else ret AWS_OP_SUCCESS) ;;
      ret j_request.

(** A producer that writes five bytes and has more to send. *)
Definition writing_producer : callback_outcome :=
  {| returned_bool := false; returned_long := 5; threw := false;
     wrote := ["h"; "e"; "l"; "l"; "o"]%byte |}.

(** A world in which no thread env can be acquired. *)
Definition detached_world : World :=
  {| last_error := AWS_ERROR_SUCCESS; jni_clock := 0;
     jni_attach := fun _ => false; jni_callback := fun _ => quiet_producer;
     jni_invoked := []; jni_exception := false;
     jni_get_java_vm := 0; jni_new_global_ref := fun _ => false |}.

Definition sample_headers : list aws_http_header :=
  [ {| name := ["H"; "o"; "s"; "t"]%byte; value := ["x"]%byte |};
    {| name := ["X"]%byte; value := [] |};
    {| name := ["X"]%byte; value := [xff; x00]%byte |} ].

(** * Properties *)

(** ** The body-stream adapter *)

Lemma set_body_done_same (impl : aws_http_request_body_stream_impl) :
  set_body_done (body_done impl) impl = impl.
Proof. destruct impl; reflexivity. Qed.

Lemma is_begin_false (basis : aws_stream_seek_basis) :
  basis <> AWS_SSB_BEGIN -> is_begin basis = false.
Proof. destruct basis; [congruence | reflexivity]. Qed.

Lemma unsupported_seek (offset : Z) (basis : aws_stream_seek_basis) :
  basis <> AWS_SSB_BEGIN \/ offset <> 0 ->
  negb (is_begin basis) || negb (offset =? 0) = true.
Proof.
  intros [Hb | Ho].
  - rewrite (is_begin_false Hb). reflexivity.
  - apply Z.eqb_neq in Ho. rewrite Ho. apply orb_true_r.
Qed.

(** C5: an adapter made without a producer is done from the start, and
    every read on it succeeds, appends nothing and leaves it done. *)
Theorem no_producer_read_is_idle (env : JNIEnv) (w : World) :
  jni_get_java_vm w = 0 ->
  exists impl,
    aws_input_stream_new_from_java_http_request_body_stream env None w
      = Returned (Some impl) w
    /\ http_request_body_stream impl = None
    /\ body_done impl = true
    /\ (forall w1,
          s_aws_input_stream_get_status impl w1
          = Returned (AWS_OP_SUCCESS,
                      {| is_end_of_stream := true; status_is_valid := true |})
                     w1)
    /\ (forall done dest w1,
          s_aws_input_stream_read (set_body_done done impl) dest w1
          = Returned (AWS_OP_SUCCESS, impl, dest) w1)
    /\ (forall n dest w1,
          read_repeatedly n impl dest w1
          = Returned (repeat AWS_OP_SUCCESS n, impl, dest) w1).
Proof.
  intros Hvm.
  exists (sample_impl None true true).
  unfold aws_input_stream_new_from_java_http_request_body_stream, GetJavaVM,
    bind, AWS_FATAL_ASSERT.
  rewrite Hvm. cbn.
  split; [reflexivity |]. split; [reflexivity |]. split; [reflexivity |].
  split; [reflexivity |]. split.
  - intros [] dest w1; reflexivity.
  - induction n as [| n IH]; intros dest w1; [reflexivity |].
    cbn [read_repeatedly]. unfold bind at 1. cbn.
    unfold bind at 1. rewrite IH. reflexivity.
Qed.

Lemma no_producer_read_is_idle_witness :
  jni_get_java_vm world0 = 0
  /\ exists impl,
       aws_input_stream_new_from_java_http_request_body_stream
         jni_env None world0 = Returned (Some impl) world0
       /\ s_aws_input_stream_read impl sample_dest world0
          = Returned (AWS_OP_SUCCESS, impl, sample_dest) world0.
Proof.
  split; [reflexivity |].
  destruct (@no_producer_read_is_idle jni_env world0 eq_refl)
    as [impl [Hnew [_ [Hdone [_ [Hread _]]]]]].
  exists impl. split; [exact Hnew |].
  specialize (Hread (body_done impl) sample_dest world0).
  rewrite set_body_done_same in Hread. exact Hread.
Defined.

(** C6, as the source has it: on a valid adapter with a producer, a seek
    with a basis other than the start or with an offset other than zero
    fails and leaves adapter and world as they were, so that nothing is
    invoked; without a producer the same seek succeeds and clears body_done,
    the world as it was, so that nothing is invoked either. *)
Theorem unsupported_seek_never_calls_producer
    (impl : aws_http_request_body_stream_impl) (offset : Z)
    (basis : aws_stream_seek_basis) (w : World) :
  is_valid impl = true ->
  basis <> AWS_SSB_BEGIN \/ offset <> 0 ->
  (forall stream,
      http_request_body_stream impl = Some stream ->
      s_aws_input_stream_seek impl offset basis w
      = Returned (AWS_OP_ERR, impl) w)
  /\ (http_request_body_stream impl = None ->
      s_aws_input_stream_seek impl offset basis w
      = Returned (AWS_OP_SUCCESS, set_body_done false impl) w).
Proof.
  intros Hvalid Hunsupported.
  apply unsupported_seek in Hunsupported.
  unfold s_aws_input_stream_seek. rewrite Hvalid, Hunsupported. cbn.
  split.
  - intros stream Hstream. rewrite Hstream. reflexivity.
  - intros Hnone. rewrite Hnone. reflexivity.
Qed.

Lemma unsupported_seek_never_calls_producer_witness :
  s_aws_input_stream_seek (sample_impl (Some sample_stream) true true)
                          5 AWS_SSB_BEGIN world0
  = Returned (AWS_OP_ERR, sample_impl (Some sample_stream) true true) world0
  /\ s_aws_input_stream_seek (sample_impl None true true)
                             0 AWS_SSB_END world0
     = Returned (AWS_OP_SUCCESS, sample_impl None false true) world0.
Proof.
  split.
  - refine (proj1 (@unsupported_seek_never_calls_producer
                     (sample_impl (Some sample_stream) true true)
                     5 AWS_SSB_BEGIN world0 eq_refl _) sample_stream eq_refl).
    right. discriminate.
  - refine (proj2 (@unsupported_seek_never_calls_producer
                     (sample_impl None true true)
                     0 AWS_SSB_END world0 eq_refl _) eq_refl).
    left. discriminate.
Defined.

(** C6, as the spec states it, fails on an adapter without a producer: a
    seek from the end with offset 5 succeeds. *)
Lemma seek_without_producer_succeeds :
  is_valid (sample_impl None true true) = true
  /\ AWS_SSB_END <> AWS_SSB_BEGIN
  /\ s_aws_input_stream_seek (sample_impl None true true) 5 AWS_SSB_END world0
     = Returned (AWS_OP_SUCCESS, sample_impl None false true) world0.
Proof.
  split; [reflexivity |]. split; [discriminate | reflexivity].
Qed.

(** C7: without a producer a seek always succeeds and clears body_done; with
    a producer, a seek to the start clears body_done when resetPosition
    returns true and no exception is pending, and fails with a callback
    failure, body_done untouched, when resetPosition returns false or an
    exception is pending. *)
Theorem seek_clears_body_done_only_on_success
    (impl : aws_http_request_body_stream_impl) (w : World) :
  is_valid impl = true ->
  (http_request_body_stream impl = None ->
   forall offset basis,
     s_aws_input_stream_seek impl offset basis w
     = Returned (AWS_OP_SUCCESS, set_body_done false impl) w)
  /\ (forall stream,
        http_request_body_stream impl = Some stream ->
        jni_attach w (jni_clock w) = true ->
        let o := jni_callback w (S (jni_clock w)) in
        exists w',
          s_aws_input_stream_seek impl 0 AWS_SSB_BEGIN w
          = Returned
              (if returned_bool o && negb (jni_exception w || threw o)
               then (AWS_OP_SUCCESS, set_body_done false impl)
               else (AWS_OP_ERR, impl))
              w'
          /\ jni_invoked w'
             = {| jc_receiver := stream; jc_method := reset_position |}
               :: jni_invoked w
          /\ (returned_bool o && negb (jni_exception w || threw o) = false ->
              last_error w' = AWS_ERROR_HTTP_CALLBACK_FAILURE)).
Proof.
  intros Hvalid. split.
  - intros Hnone offset basis.
    unfold s_aws_input_stream_seek. rewrite Hvalid, Hnone. reflexivity.
  - intros stream Hstream Hattach o.
    unfold s_aws_input_stream_seek. rewrite Hvalid, Hstream. cbn.
    unfold bind, aws_jni_acquire_thread_env. rewrite Hattach. cbn.
    fold o.
    destruct (returned_bool o); cbn;
      destruct (jni_exception w || threw o); cbn;
      eexists; (split; [reflexivity | split; [reflexivity | ]]);
      intros; try reflexivity; discriminate.
Qed.

Lemma seek_clears_body_done_only_on_success_witness :
  (s_aws_input_stream_seek (sample_impl None true true) 9 AWS_SSB_END world0
   = Returned (AWS_OP_SUCCESS, sample_impl None false true) world0)
  /\ (exists w',
        s_aws_input_stream_seek (sample_impl (Some sample_stream) true true)
                                0 AWS_SSB_BEGIN (world_with refusing_producer)
        = Returned (AWS_OP_ERR, sample_impl (Some sample_stream) true true) w').
Proof.
  split.
  - exact (proj1 (@seek_clears_body_done_only_on_success
                    (sample_impl None true true) world0 eq_refl)
                 eq_refl 9 AWS_SSB_END).
  - destruct (proj2 (@seek_clears_body_done_only_on_success
                       (sample_impl (Some sample_stream) true true)
                       (world_with refusing_producer) eq_refl)
                    sample_stream eq_refl eq_refl) as [w' [H _]].
    exists w'. exact H.
Defined.

(** C8, as the source has it: on an adapter that is not valid, read and seek
    fail with the invalid-body-stream error and touch nothing else, and
    get_status succeeds and reports the adapter as not valid; get_length
    does not look at is_valid: it does what it does on the same adapter
    when valid, fails when there is no producer, fails when no thread env
    can be acquired, fails when the call leaves an exception pending, and
    otherwise succeeds with the length the producer reports. *)
Theorem invalid_stream_operations
    (impl : aws_http_request_body_stream_impl) (w : World) :
  is_valid impl = false ->
  (forall dest,
      s_aws_input_stream_read impl dest w
      = Returned (AWS_OP_ERR, impl, dest)
                 (set_last_error AWS_ERROR_HTTP_INVALID_BODY_STREAM w))
  /\ (forall offset basis,
        s_aws_input_stream_seek impl offset basis w
        = Returned (AWS_OP_ERR, impl)
                   (set_last_error AWS_ERROR_HTTP_INVALID_BODY_STREAM w))
  /\ s_aws_input_stream_get_status impl w
     = Returned (AWS_OP_SUCCESS,
                 {| is_end_of_stream := body_done impl;
                    status_is_valid := false |}) w
  /\ (forall length,
        s_aws_input_stream_get_length impl length w
        = s_aws_input_stream_get_length (set_is_valid true impl) length w)
  /\ (forall l,
        http_request_body_stream impl = None ->
        s_aws_input_stream_get_length impl (Some l) w
        = Returned (AWS_OP_ERR, Some l) w)
  /\ (forall stream l,
        http_request_body_stream impl = Some stream ->
        jni_attach w (jni_clock w) = true ->
        let o := jni_callback w (S (jni_clock w)) in
        exists w',
          s_aws_input_stream_get_length impl (Some l) w
          = Returned (if jni_exception w || threw o
                      then AWS_OP_ERR else AWS_OP_SUCCESS,
                      Some (returned_long o)) w')
  /\ (forall stream l,
        http_request_body_stream impl = Some stream ->
        jni_attach w (jni_clock w) = false ->
        s_aws_input_stream_get_length impl (Some l) w
        = Returned (AWS_OP_ERR, Some l) (tick w)).
Proof.
  intros Hinvalid.
  split; [| split; [| split; [| split; [| split; [| split]]]]].
  - intros dest. unfold s_aws_input_stream_read. rewrite Hinvalid. reflexivity.
  - intros offset basis. unfold s_aws_input_stream_seek.
    rewrite Hinvalid. reflexivity.
  - unfold s_aws_input_stream_get_status. rewrite Hinvalid. reflexivity.
  - intros length. reflexivity.
  - intros l Hnone. unfold s_aws_input_stream_get_length.
    rewrite Hnone. reflexivity.
  - intros stream l Hstream Hattach o.
    unfold s_aws_input_stream_get_length. rewrite Hstream. cbn.
    unfold bind, aws_jni_acquire_thread_env. rewrite Hattach. cbn.
    fold o. destruct (jni_exception w || threw o); eexists; reflexivity.
  - intros stream l Hstream Hattach.
    unfold s_aws_input_stream_get_length. rewrite Hstream. cbn.
    unfold bind, aws_jni_acquire_thread_env. rewrite Hattach. reflexivity.
Qed.

Lemma invalid_stream_operations_witness :
  s_aws_input_stream_read (sample_impl (Some sample_stream) false false)
                          sample_dest world0
  = Returned (AWS_OP_ERR, sample_impl (Some sample_stream) false false,
              sample_dest)
             (set_last_error AWS_ERROR_HTTP_INVALID_BODY_STREAM world0).
Proof.
  exact (proj1 (@invalid_stream_operations
                  (sample_impl (Some sample_stream) false false) world0
                  eq_refl) sample_dest).
Defined.

(** C8, as the spec states it, fails for get_length: on an adapter that is
    not valid and has a producer, get_length succeeds with the length the
    producer reports. *)
Lemma get_length_ignores_is_valid :
  is_valid (sample_impl (Some sample_stream) false false) = false
  /\ s_aws_input_stream_get_length
       (sample_impl (Some sample_stream) false false) (Some 5) world0
     = Returned (AWS_OP_SUCCESS, Some 0)
         (set_exception false
            (log_call {| jc_receiver := sample_stream;
                         jc_method := get_length |} false (tick world0))).
Proof.
  split; reflexivity.
Qed.

(** C10: when sendOutgoingBody leaves an exception pending, read fails with
    a callback failure and the destination is as it was, but body_done
    already holds what the callback returned. *)
Theorem read_exception_still_sets_body_done
    (impl : aws_http_request_body_stream_impl) (stream : jobject)
    (dest : aws_byte_buf) (w : World) :
  is_valid impl = true ->
  http_request_body_stream impl = Some stream ->
  body_done impl = false ->
  jni_attach w (jni_clock w) = true ->
  jni_exception w || threw (jni_callback w (S (jni_clock w))) = true ->
  exists w',
    s_aws_input_stream_read impl dest w
    = Returned (AWS_OP_ERR,
                set_body_done
                  (returned_bool (jni_callback w (S (jni_clock w)))) impl,
                dest) w'
    /\ last_error w' = AWS_ERROR_HTTP_CALLBACK_FAILURE
    /\ jni_exception w' = false
    /\ jni_invoked w'
       = {| jc_receiver := stream; jc_method := send_outgoing_body |}
         :: jni_invoked w.
Proof.
  intros Hvalid Hstream Hdone Hattach Hexn.
  unfold s_aws_input_stream_read. rewrite Hvalid, Hstream, Hdone. cbn.
  unfold bind, aws_jni_acquire_thread_env. rewrite Hattach. cbn.
  rewrite Hexn. cbn.
  eexists. split; [reflexivity |]. repeat split.
Qed.

Lemma read_exception_still_sets_body_done_witness :
  exists w',
    s_aws_input_stream_read (sample_impl (Some sample_stream) false true)
                            sample_dest (world_with raising_producer)
    = Returned (AWS_OP_ERR, sample_impl (Some sample_stream) true true,
                sample_dest) w'.
Proof.
  destruct (@read_exception_still_sets_body_done
              (sample_impl (Some sample_stream) false true) sample_stream
              sample_dest (world_with raising_producer)
              eq_refl eq_refl eq_refl eq_refl eq_refl) as [w' [H _]].
  exists w'. exact H.
Defined.

(** C9: with a producer, once sendOutgoingBody has returned true every later
    read succeeds, appends nothing and changes neither the adapter nor the
    world, so nothing is invoked; a seek that succeeds puts the adapter back
    into the state in which read invokes the producer. *)
Theorem read_after_done_is_idle
    (impl : aws_http_request_body_stream_impl) (stream : jobject) :
  is_valid impl = true ->
  http_request_body_stream impl = Some stream ->
  body_done impl = false ->
  (forall dest w,
      jni_attach w (jni_clock w) = true ->
      exists r dest' w',
        s_aws_input_stream_read impl dest w
        = Returned (r, set_body_done
                         (returned_bool (jni_callback w (S (jni_clock w))))
                         impl, dest') w'
        /\ jni_invoked w'
           = {| jc_receiver := stream; jc_method := send_outgoing_body |}
             :: jni_invoked w)
  /\ (forall dest w,
        s_aws_input_stream_read (set_body_done true impl) dest w
        = Returned (AWS_OP_SUCCESS, set_body_done true impl, dest) w)
  /\ (forall n dest w,
        read_repeatedly n (set_body_done true impl) dest w
        = Returned (repeat AWS_OP_SUCCESS n, set_body_done true impl, dest) w)
  /\ (forall offset basis w impl' w',
        s_aws_input_stream_seek (set_body_done true impl) offset basis w
        = Returned (AWS_OP_SUCCESS, impl') w' ->
        impl' = impl).
Proof.
  intros Hvalid Hstream Hdone.
  assert (Hidle : forall dest w,
             s_aws_input_stream_read (set_body_done true impl) dest w
             = Returned (AWS_OP_SUCCESS, set_body_done true impl, dest) w).
  { intros dest w. unfold s_aws_input_stream_read. cbn.
    rewrite Hvalid, Hstream. reflexivity. }
  split; [| split; [exact Hidle | split]].
  - intros dest w Hattach.
    unfold s_aws_input_stream_read. rewrite Hvalid, Hstream, Hdone. cbn.
    unfold bind, aws_jni_acquire_thread_env. rewrite Hattach. cbn.
    destruct (jni_exception w || threw (jni_callback w (S (jni_clock w))));
      cbn; do 3 eexists; split; reflexivity.
  - induction n as [| n IH]; intros dest w; [reflexivity |].
    cbn [read_repeatedly]. unfold bind at 1. rewrite Hidle.
    unfold bind at 1. rewrite IH. reflexivity.
  - intros offset basis w impl' w'.
    unfold s_aws_input_stream_seek. cbn. rewrite Hvalid, Hstream.
    assert (Hback : set_body_done false (set_body_done true impl) = impl).
    { destruct impl; cbn in *; subst; reflexivity. }
    unfold bind, aws_jni_acquire_thread_env, AWS_OP_ERR, AWS_OP_SUCCESS.
    destruct (negb (is_begin basis) || negb (offset =? 0));
      [discriminate |].
    cbn. destruct (jni_attach w (jni_clock w)); cbn; [| discriminate].
    destruct (returned_bool (jni_callback w (S (jni_clock w)))); cbn;
      destruct (jni_exception w || threw (jni_callback w (S (jni_clock w))));
      cbn; intros H; inversion H; subst; try discriminate.
    exact Hback.
Qed.

Lemma read_after_done_is_idle_witness :
  read_repeatedly 3 (sample_impl (Some sample_stream) true true)
                  sample_dest world0
  = Returned ([AWS_OP_SUCCESS; AWS_OP_SUCCESS; AWS_OP_SUCCESS],
              sample_impl (Some sample_stream) true true, sample_dest)
             world0.
Proof.
  exact (proj1 (proj2 (proj2
           (@read_after_done_is_idle
              (sample_impl (Some sample_stream) false true) sample_stream
              eq_refl eq_refl eq_refl)))
         3%nat sample_dest world0).
Defined.

(** ** Bytes and 32-bit prefixes *)

Lemma byte_to_Z_range (b : byte) : 0 <= byte_to_Z b < 256.
Proof.
  unfold byte_to_Z. pose proof (Byte.to_N_bounded b) as H.
  split; [apply N2Z.is_nonneg |].
  apply N2Z.inj_le in H. change (Z.of_N 255) with 255 in H. lia.
Qed.

Lemma byte_to_of_Z (z : Z) : byte_to_Z (byte_of_Z z) = z mod 256.
Proof.
  unfold byte_to_Z, byte_of_Z.
  assert (Hr : 0 <= z mod 256 < 256) by (apply Z.mod_pos_bound; lia).
  destruct (Byte.of_N (Z.to_N (z mod 256))) as [b |] eqn:E.
  - apply Byte.to_of_N in E. rewrite E. apply Z2N.id. lia.
  - apply Byte.of_N_None_iff in E.
    apply N2Z.inj_lt in E. rewrite Z2N.id in E by lia.
    change (Z.of_N 255) with 255 in E. lia.
Qed.

Lemma byte_to_Z_zero (b : byte) : byte_to_Z b = 0 -> b = x00.
Proof.
  unfold byte_to_Z. intros H.
  assert (Hn : Byte.to_N b = 0%N) by lia.
  pose proof (Byte.of_to_N b) as Hb. rewrite Hn in Hb.
  cbn in Hb. congruence.
Qed.

Lemma be32_value_range (b0 b1 b2 b3 : byte) :
  0 <= be32_value b0 b1 b2 b3 <= UINT32_MAX.
Proof.
  unfold be32_value, UINT32_MAX.
  pose proof (byte_to_Z_range b0). pose proof (byte_to_Z_range b1).
  pose proof (byte_to_Z_range b2). pose proof (byte_to_Z_range b3). lia.
Qed.

Lemma be32_value_zero (b0 b1 b2 b3 : byte) :
  be32_value b0 b1 b2 b3 = 0 ->
  b0 = x00 /\ b1 = x00 /\ b2 = x00 /\ b3 = x00.
Proof.
  unfold be32_value. intros H.
  pose proof (byte_to_Z_range b0). pose proof (byte_to_Z_range b1).
  pose proof (byte_to_Z_range b2). pose proof (byte_to_Z_range b3).
  repeat split; apply byte_to_Z_zero; lia.
Qed.

Lemma be32_value_bytes (x : Z) :
  0 <= x <= UINT32_MAX ->
  exists b0 b1 b2 b3,
    be32_bytes x = [b0; b1; b2; b3] /\ be32_value b0 b1 b2 b3 = x.
Proof.
  unfold UINT32_MAX. intros Hx. unfold be32_bytes.
  do 4 eexists. split; [reflexivity |].
  unfold be32_value. rewrite !byte_to_of_Z.
  Z.div_mod_to_equations. lia.
Qed.

Lemma to_uint32_small (x : Z) : 0 <= x <= UINT32_MAX -> to_uint32 x = x.
Proof. unfold to_uint32. intros H. apply Z.mod_small. lia. Qed.

Lemma to_size_t_small (x : Z) : 0 <= x <= SIZE_MAX -> to_size_t x = x.
Proof. unfold to_size_t. intros H. apply Z.mod_small. lia. Qed.

(** ** Cursors *)

Lemma cursor_len_nonneg (c : aws_byte_cursor) : 0 <= cursor_len c.
Proof. unfold cursor_len. lia. Qed.

Lemma cursor_len_cons (b : byte) (c : aws_byte_cursor) :
  cursor_len (b :: c) = 1 + cursor_len c.
Proof. unfold cursor_len. cbn [length]. lia. Qed.

Lemma cursor_len_app (c d : aws_byte_cursor) :
  cursor_len (c ++ d) = cursor_len c + cursor_len d.
Proof. unfold cursor_len. rewrite length_app. lia. Qed.

Lemma cursor_len_be32 (x : Z) : cursor_len (be32_bytes x) = 4.
Proof. reflexivity. Qed.

Lemma cursor_len_zero (c : aws_byte_cursor) :
  (cursor_len c =? 0) = true -> c = [].
Proof.
  intros H. apply Z.eqb_eq in H. destruct c; [reflexivity |].
  rewrite cursor_len_cons in H. pose proof (cursor_len_nonneg c). lia.
Qed.

(** What aws_byte_cursor_read_be32 does, by the shape of the cursor. *)
Lemma read_be32_unfold (cur : aws_byte_cursor) :
  aws_byte_cursor_read_be32 cur
  = match cur with
    | b0 :: b1 :: b2 :: b3 :: rest =>
        if SIZE_MAX_HALF <? cursor_len cur then None
        else Some (be32_value b0 b1 b2 b3, rest)
    | _ => None
    end.
Proof.
  unfold aws_byte_cursor_read_be32.
  destruct cur as [| b0 [| b1 [| b2 [| b3 rest]]]];
    try (destruct (_ || _); reflexivity).
  assert (H : (cursor_len (b0 :: b1 :: b2 :: b3 :: rest) <? 4) = false).
  { apply Z.ltb_ge. rewrite !cursor_len_cons.
    pose proof (cursor_len_nonneg rest). lia. }
  rewrite H, orb_false_r. reflexivity.
Qed.

Lemma read_be32_some (cur rest : aws_byte_cursor) (v : Z) :
  aws_byte_cursor_read_be32 cur = Some (v, rest) ->
  exists b0 b1 b2 b3,
    cur = b0 :: b1 :: b2 :: b3 :: rest /\ v = be32_value b0 b1 b2 b3.
Proof.
  rewrite read_be32_unfold.
  destruct cur as [| b0 [| b1 [| b2 [| b3 rest']]]]; try discriminate.
  destruct (SIZE_MAX_HALF <? _); [discriminate |].
  intros H. inversion H; subst. do 4 eexists. split; reflexivity.
Qed.

Lemma read_be32_prefix (x : Z) (rest : aws_byte_cursor) :
  0 <= x <= UINT32_MAX ->
  cursor_len (be32_bytes x ++ rest) <= SIZE_MAX_HALF ->
  aws_byte_cursor_read_be32 (be32_bytes x ++ rest) = Some (x, rest).
Proof.
  intros Hx Hlen.
  destruct (be32_value_bytes Hx) as [b0 [b1 [b2 [b3 [Hb Hv]]]]].
  rewrite Hb in *. rewrite read_be32_unfold. cbn [app].
  cbn [app] in Hlen. apply Z.ltb_ge in Hlen. rewrite Hlen, Hv. reflexivity.
Qed.

Lemma advance_length (cursor : aws_byte_cursor) (len : Z) :
  (length (snd (aws_byte_cursor_advance cursor len)) <= length cursor)%nat.
Proof.
  unfold aws_byte_cursor_advance.
  destruct (_ || _); cbn [snd]; [lia |].
  rewrite length_skipn. lia.
Qed.

Lemma advance_field (field rest : aws_byte_cursor) :
  cursor_len (field ++ rest) <= SIZE_MAX_HALF ->
  aws_byte_cursor_advance (field ++ rest) (cursor_len field) = (field, rest).
Proof.
  intros Hlen. unfold aws_byte_cursor_advance.
  pose proof (cursor_len_nonneg rest) as Hrest.
  rewrite cursor_len_app in *.
  assert (H1 : (SIZE_MAX_HALF <? cursor_len field + cursor_len rest) = false)
    by (apply Z.ltb_ge; lia).
  assert (H2 : (SIZE_MAX_HALF <? cursor_len field) = false)
    by (apply Z.ltb_ge; lia).
  assert (H3 : (cursor_len field + cursor_len rest <? cursor_len field) = false)
    by (apply Z.ltb_ge; lia).
  rewrite H1, H2, H3. cbn [orb].
  unfold cursor_len. rewrite Nat2Z.id.
  rewrite firstn_app, skipn_app, Nat.sub_diag, firstn_all, skipn_all.
  cbn. rewrite app_nil_r. reflexivity.
Qed.

(** A length-prefixed field is read back by the two calls the decoder
    makes for it. *)
Lemma read_lp (field rest : aws_byte_cursor) :
  fits_uint32 field = true ->
  cursor_len (wire_lp field ++ rest) <= SIZE_MAX_HALF ->
  aws_byte_cursor_read_be32 (wire_lp field ++ rest)
  = Some (cursor_len field, field ++ rest)
  /\ aws_byte_cursor_advance (field ++ rest) (cursor_len field)
     = (field, rest).
Proof.
  unfold fits_uint32, wire_lp. intros Hfit Hlen.
  apply Z.leb_le in Hfit. pose proof (cursor_len_nonneg field).
  rewrite <- app_assoc in *. split.
  - apply read_be32_prefix; [lia | exact Hlen].
  - apply advance_field. rewrite cursor_len_app, cursor_len_be32 in Hlen.
    pose proof (cursor_len_nonneg (field ++ rest)). lia.
Qed.

(** ** The header loops *)

Lemma read_be32_length (cur rest : aws_byte_cursor) (v : Z) :
  aws_byte_cursor_read_be32 cur = Some (v, rest) ->
  length cur = (4 + length rest)%nat.
Proof.
  intros H. apply read_be32_some in H.
  destruct H as [b0 [b1 [b2 [b3 [-> _]]]]]. reflexivity.
Qed.

(** The loop of s_unmarshal_http_request_without_version returns once it has
    more fuel than the cursor has bytes. *)
Lemma s_unmarshal_http_request_headers_returns (fuel : nat) :
  forall (message : aws_http_message) (request_blob : aws_byte_cursor)
         (w : World),
    (length request_blob < fuel)%nat ->
    exists r m c w',
      s_unmarshal_http_request_headers fuel message request_blob w
      = Returned (r, m, c) w'.
Proof.
  induction fuel as [| fuel IH]; intros message blob w Hfuel; [lia |].
  cbn [s_unmarshal_http_request_headers].
  destruct (cursor_len blob =? 0); [do 4 eexists; reflexivity |].
  destruct (aws_byte_cursor_read_be32 blob) as [[len1 blob1] |] eqn:R1;
    [| do 4 eexists; reflexivity].
  apply read_be32_length in R1.
  pose proof (advance_length blob1 len1) as A1.
  destruct (aws_byte_cursor_advance blob1 len1) as [header_name blob2].
  cbn [snd] in A1.
  destruct (aws_byte_cursor_read_be32 blob2) as [[len2 blob3] |] eqn:R2;
    [| do 4 eexists; reflexivity].
  apply read_be32_length in R2.
  pose proof (advance_length blob3 len2) as A2.
  destruct (aws_byte_cursor_advance blob3 len2) as [header_value blob4].
  cbn [snd] in A2.
  cbn [aws_http_message_add_header aws_http_headers_add_header].
  apply IH. lia.
Qed.

(** The loop of s_unmarshal_http_headers is the same loop on the header set
    alone. *)
Lemma s_unmarshal_http_headers_loop_returns (fuel : nat) :
  forall (hs : aws_http_headers) (request_blob : aws_byte_cursor) (w : World),
    (length request_blob < fuel)%nat ->
    exists r hs' c w',
      s_unmarshal_http_headers_loop fuel hs request_blob w
      = Returned (r, hs', c) w'.
Proof.
  induction fuel as [| fuel IH]; intros hs blob w Hfuel; [lia |].
  cbn [s_unmarshal_http_headers_loop].
  destruct (cursor_len blob =? 0); [do 4 eexists; reflexivity |].
  destruct (aws_byte_cursor_read_be32 blob) as [[len1 blob1] |] eqn:R1;
    [| do 4 eexists; reflexivity].
  apply read_be32_length in R1.
  pose proof (advance_length blob1 len1) as A1.
  destruct (aws_byte_cursor_advance blob1 len1) as [header_name blob2].
  cbn [snd] in A1.
  destruct (aws_byte_cursor_read_be32 blob2) as [[len2 blob3] |] eqn:R2;
    [| do 4 eexists; reflexivity].
  apply read_be32_length in R2.
  pose proof (advance_length blob3 len2) as A2.
  destruct (aws_byte_cursor_advance blob3 len2) as [header_value blob4].
  cbn [snd] in A2.
  cbn [aws_http_headers_add_header].
  apply IH. lia.
Qed.

(** Decoding always returns: neither loop runs out of the fuel it is
    started with. *)
Lemma s_unmarshal_http_headers_returns (hs : aws_http_headers)
    (request_blob : aws_byte_cursor) (w : World) :
  exists r hs' c w',
    s_unmarshal_http_headers hs request_blob w = Returned (r, hs', c) w'.
Proof.
  unfold s_unmarshal_http_headers.
  apply s_unmarshal_http_headers_loop_returns. lia.
Qed.

Lemma s_unmarshal_http_request_without_version_returns
    (message : aws_http_message) (request_blob : aws_byte_cursor) (w : World) :
  exists r m c w',
    s_unmarshal_http_request_without_version message request_blob w
    = Returned (r, m, c) w'.
Proof.
  unfold s_unmarshal_http_request_without_version.
  destruct (negb (is_http2 (aws_http_message_get_protocol_version message))).
  - destruct (aws_byte_cursor_read_be32 request_blob) as [[len1 blob1] |];
      [| do 4 eexists; reflexivity].
    destruct (aws_byte_cursor_advance blob1 len1) as [method blob2].
    cbn [aws_http_message_set_request_method].
    change (negb (AWS_OP_SUCCESS =? AWS_OP_SUCCESS)) with false. cbv iota.
    destruct (aws_byte_cursor_read_be32 blob2) as [[len2 blob3] |];
      [| do 4 eexists; reflexivity].
    destruct (aws_byte_cursor_advance blob3 len2) as [path blob4].
    cbn [aws_http_message_set_request_path].
    change (negb (AWS_OP_SUCCESS =? AWS_OP_SUCCESS)) with false. cbv iota.
    apply s_unmarshal_http_request_headers_returns. lia.
  - destruct (aws_byte_cursor_read_be32 request_blob) as [[len1 blob1] |];
      [| do 4 eexists; reflexivity].
    destruct (negb (len1 =? 0)); [do 4 eexists; reflexivity |].
    destruct (aws_byte_cursor_read_be32 blob1) as [[len2 blob2] |];
      [| do 4 eexists; reflexivity].
    destruct (negb (len2 =? 0)); [do 4 eexists; reflexivity |].
    apply s_unmarshal_http_request_headers_returns. lia.
Qed.

(** The loop reads the frame of a header list back, in order and after the
    headers already there. *)
Lemma s_unmarshal_http_request_headers_wire (hs : list aws_http_header) :
  forall (fuel : nat) (message : aws_http_message) (w : World),
    forallb header_fits hs = true ->
    cursor_len (wire_headers hs) <= SIZE_MAX_HALF ->
    (length hs < fuel)%nat ->
    s_unmarshal_http_request_headers fuel message (wire_headers hs) w
    = Returned (AWS_OP_SUCCESS, set_headers (headers message ++ hs) message, [])
               w.
Proof.
  induction hs as [| h hs IH]; intros fuel message w Hfit Hlen Hfuel.
  - destruct fuel; cbn; rewrite app_nil_r; destruct message; reflexivity.
  - destruct fuel as [| fuel]; [cbn in Hfuel; lia |].
    cbn [forallb] in Hfit. apply andb_prop in Hfit. destruct Hfit as [Hh Hhs].
    unfold header_fits in Hh. apply andb_prop in Hh. destruct Hh as [Hn Hv].
    cbn [wire_headers flat_map] in *. fold (wire_headers hs) in *.
    unfold wire_header in *. rewrite <- !app_assoc in *.
    cbn [s_unmarshal_http_request_headers].
    assert (Hnz : (cursor_len (wire_lp (name h) ++ wire_lp (value h)
                                ++ wire_headers hs) =? 0) = false).
    { apply Z.eqb_neq. unfold wire_lp. rewrite <- app_assoc.
      rewrite cursor_len_app, cursor_len_be32.
      pose proof (cursor_len_nonneg
                    (name h ++ (be32_bytes (cursor_len (value h)) ++ value h)
                     ++ wire_headers hs)). lia. }
    rewrite Hnz.
    destruct (read_lp Hn Hlen)
      as [R1 A1].
    rewrite R1, A1.
    assert (Hlen2 : cursor_len (wire_lp (value h) ++ wire_headers hs)
                    <= SIZE_MAX_HALF).
    { unfold wire_lp in Hlen at 1. rewrite <- app_assoc in Hlen.
      rewrite !cursor_len_app in Hlen. rewrite cursor_len_be32 in Hlen.
      rewrite cursor_len_app.
      pose proof (cursor_len_nonneg (name h)). lia. }
    destruct (read_lp Hv Hlen2) as [R2 A2].
    rewrite R2, A2.
    cbn [aws_http_message_add_header aws_http_headers_add_header].
    assert (Hlen3 : cursor_len (wire_headers hs) <= SIZE_MAX_HALF).
    { rewrite cursor_len_app in Hlen2.
      pose proof (cursor_len_nonneg (wire_lp (value h))). lia. }
    rewrite (IH fuel _ w Hhs Hlen3) by (cbn in Hfuel; lia).
    cbn [headers set_headers]. rewrite <- app_assoc. cbn [app].
    destruct h as [n v]. reflexivity.
Qed.

(** ** Decoding in place *)

(** C3: a frame whose version field differs from the version of the request
    it is applied to is rejected with an invalid-argument error; the request
    comes back with its headers cleared and nothing else changed. *)
Theorem version_mismatch_rejected (env : JNIEnv) (b0 b1 b2 b3 : byte)
    (rest : list byte) (jni_body_stream : option jobject)
    (message : aws_http_message) (w : World) :
  be32_value b0 b1 b2 b3 <> version_code (http_version message) ->
  aws_apply_java_http_request_changes_to_native_request
    env (b0 :: b1 :: b2 :: b3 :: rest) jni_body_stream message w
  = Returned (AWS_OP_ERR, set_headers [] message)
             (set_exception true
                (set_last_error AWS_ERROR_INVALID_ARGUMENT w)).
Proof.
  intros Hversion.
  unfold aws_apply_java_http_request_changes_to_native_request,
    s_unmarshal_http_request_to_get_version, bind.
  rewrite read_be32_unfold.
  destruct (SIZE_MAX_HALF <? cursor_len (b0 :: b1 :: b2 :: b3 :: rest)) eqn:G.
  - (* no version can be read: it is taken to be 0 *)
    clear Hversion. destruct message as [v method path hs stream].
    destruct v; try reflexivity.
    unfold s_unmarshal_http_request_without_version.
    cbn -[cursor_len aws_byte_cursor_read_be32].
    rewrite read_be32_unfold, G. reflexivity.
  - apply Z.eqb_neq in Hversion. cbn -[cursor_len be32_value].
    rewrite Hversion. reflexivity.
Qed.

Lemma version_mismatch_rejected_witness :
  aws_apply_java_http_request_changes_to_native_request
    jni_env [x00; x00; x00; x03; x00; x00; x00; x00; x00; x00; x00; x00]
    None (sample_request AWS_HTTP_VERSION_1_1) world0
  = Returned (AWS_OP_ERR, set_headers [] (sample_request AWS_HTTP_VERSION_1_1))
             (set_exception true
                (set_last_error AWS_ERROR_INVALID_ARGUMENT world0)).
Proof.
  apply version_mismatch_rejected. vm_compute. discriminate.
Defined.

Lemma http2_decode_branch (message : aws_http_message) :
  http_version message = AWS_HTTP_VERSION_2 ->
  negb (is_http2 (aws_http_message_get_protocol_version message)) = false.
Proof.
  intros Hv. unfold aws_http_message_get_protocol_version.
  rewrite Hv. reflexivity.
Qed.

Lemma http2_method_length_rejected (message : aws_http_message) (w : World)
    (b0 b1 b2 b3 : byte) (rest : list byte) :
  http_version message = AWS_HTTP_VERSION_2 ->
  be32_value b0 b1 b2 b3 <> 0 ->
  exists c,
    s_unmarshal_http_request_without_version
      message (b0 :: b1 :: b2 :: b3 :: rest) w
    = Returned (AWS_OP_ERR, message, c)
               (set_last_error AWS_ERROR_INVALID_ARGUMENT w).
Proof.
  intros Hv Hnz.
  unfold s_unmarshal_http_request_without_version.
  rewrite (http2_decode_branch _ Hv), read_be32_unfold.
  destruct (SIZE_MAX_HALF <? _); [eexists; reflexivity |].
  apply Z.eqb_neq in Hnz. rewrite Hnz. eexists; reflexivity.
Qed.

Lemma http2_path_length_rejected (message : aws_http_message) (w : World)
    (b0 b1 b2 b3 c0 c1 c2 c3 : byte) (rest : list byte) :
  http_version message = AWS_HTTP_VERSION_2 ->
  be32_value c0 c1 c2 c3 <> 0 ->
  exists c,
    s_unmarshal_http_request_without_version
      message (b0 :: b1 :: b2 :: b3 :: c0 :: c1 :: c2 :: c3 :: rest) w
    = Returned (AWS_OP_ERR, message, c)
               (set_last_error AWS_ERROR_INVALID_ARGUMENT w).
Proof.
  intros Hv Hnz.
  unfold s_unmarshal_http_request_without_version.
  rewrite (http2_decode_branch _ Hv), read_be32_unfold.
  destruct (SIZE_MAX_HALF <? _); [eexists; reflexivity |].
  destruct (negb (be32_value b0 b1 b2 b3 =? 0)); [eexists; reflexivity |].
  rewrite read_be32_unfold.
  destruct (SIZE_MAX_HALF <? _); [eexists; reflexivity |].
  apply Z.eqb_neq in Hnz. rewrite Hnz. eexists; reflexivity.
Qed.

(** A frame with the HTTP/2 version applied to an HTTP/2 request fails as
    soon as the decoding of what follows the version fails with an
    invalid-argument error. *)
Lemma http2_apply_rejected (env : JNIEnv) (blob : list byte)
    (jni_body_stream : option jobject) (message : aws_http_message)
    (w : World) :
  http_version message = AWS_HTTP_VERSION_2 ->
  (exists c,
      s_unmarshal_http_request_without_version (set_headers [] message) blob w
      = Returned (AWS_OP_ERR, set_headers [] message, c)
                 (set_last_error AWS_ERROR_INVALID_ARGUMENT w)) ->
  aws_apply_java_http_request_changes_to_native_request
    env (x00 :: x00 :: x00 :: x03 :: blob) jni_body_stream message w
  = Returned (AWS_OP_ERR, set_headers [] message)
             (set_exception true
                (set_last_error AWS_ERROR_INVALID_ARGUMENT w)).
Proof.
  intros Hv [c Hdecode].
  unfold aws_apply_java_http_request_changes_to_native_request,
    s_unmarshal_http_request_to_get_version, bind.
  rewrite read_be32_unfold.
  destruct (SIZE_MAX_HALF <? _).
  - destruct message as [v method path hs stream]. cbn in Hv. subst v.
    reflexivity.
  - change (be32_value x00 x00 x00 x03) with 3.
    unfold aws_http_headers_clear, aws_http_message_get_headers.
    unfold ret at 1.
    replace (3 =? version_code
                    (aws_http_message_get_protocol_version
                       (set_headers [] message))) with true
      by (cbn; rewrite Hv; reflexivity).
    cbn [negb]. rewrite Hdecode. reflexivity.
Qed.

(** C4: into an HTTP/2 request, a frame whose method or path length is not
    zero is rejected with an invalid-argument error, by the decoder of what
    follows the version and by the whole decode in place; decoding succeeds
    only on a frame that has two zero lengths after the version. *)
Theorem http2_frame_fields_must_be_empty (message : aws_http_message)
    (w : World) :
  http_version message = AWS_HTTP_VERSION_2 ->
  (forall b0 b1 b2 b3 rest,
      be32_value b0 b1 b2 b3 <> 0 ->
      (exists c,
          s_unmarshal_http_request_without_version
            message (b0 :: b1 :: b2 :: b3 :: rest) w
          = Returned (AWS_OP_ERR, message, c)
                     (set_last_error AWS_ERROR_INVALID_ARGUMENT w))
      /\ (forall env jni_body_stream,
            aws_apply_java_http_request_changes_to_native_request
              env (x00 :: x00 :: x00 :: x03 :: b0 :: b1 :: b2 :: b3 :: rest)
              jni_body_stream message w
            = Returned (AWS_OP_ERR, set_headers [] message)
                       (set_exception true
                          (set_last_error AWS_ERROR_INVALID_ARGUMENT w))))
  /\ (forall b0 b1 b2 b3 c0 c1 c2 c3 rest,
        be32_value c0 c1 c2 c3 <> 0 ->
        (exists c,
            s_unmarshal_http_request_without_version
              message (b0 :: b1 :: b2 :: b3 :: c0 :: c1 :: c2 :: c3 :: rest) w
            = Returned (AWS_OP_ERR, message, c)
                       (set_last_error AWS_ERROR_INVALID_ARGUMENT w))
        /\ (forall env jni_body_stream,
              aws_apply_java_http_request_changes_to_native_request
                env (x00 :: x00 :: x00 :: x03
                     :: b0 :: b1 :: b2 :: b3 :: c0 :: c1 :: c2 :: c3 :: rest)
                jni_body_stream message w
              = Returned (AWS_OP_ERR, set_headers [] message)
                         (set_exception true
                            (set_last_error AWS_ERROR_INVALID_ARGUMENT w))))
  /\ (forall blob m c w',
        s_unmarshal_http_request_without_version message blob w
        = Returned (AWS_OP_SUCCESS, m, c) w' ->
        exists rest,
          blob = x00 :: x00 :: x00 :: x00 :: x00 :: x00 :: x00 :: x00 :: rest)
  /\ s_unmarshal_http_request_without_version
       message [x00; x00; x00; x00; x00; x00; x00; x00] w
     = Returned (AWS_OP_SUCCESS, message, []) w.
Proof.
  intros Hv.
  pose proof (http2_decode_branch _ Hv) as H2.
  split; [| split; [| split]].
  - intros b0 b1 b2 b3 rest Hnz. split.
    + apply http2_method_length_rejected; assumption.
    + intros env jbs. apply http2_apply_rejected; [exact Hv |].
      apply http2_method_length_rejected; assumption.
  - intros b0 b1 b2 b3 c0 c1 c2 c3 rest Hnz. split.
    + apply http2_path_length_rejected; assumption.
    + intros env jbs. apply http2_apply_rejected; [exact Hv |].
      apply http2_path_length_rejected; assumption.
  - intros blob m c w'.
    unfold s_unmarshal_http_request_without_version. rewrite H2.
    destruct (aws_byte_cursor_read_be32 blob) as [[len1 blob1] |] eqn:R1;
      [| cbn; unfold AWS_OP_ERR, AWS_OP_SUCCESS; discriminate].
    destruct (len1 =? 0) eqn:Z1;
      [| cbn; unfold AWS_OP_ERR, AWS_OP_SUCCESS; discriminate].
    cbn [negb].
    destruct (aws_byte_cursor_read_be32 blob1) as [[len2 blob2] |] eqn:R2;
      [| cbn; unfold AWS_OP_ERR, AWS_OP_SUCCESS; discriminate].
    destruct (len2 =? 0) eqn:Z2;
      [| cbn; unfold AWS_OP_ERR, AWS_OP_SUCCESS; discriminate].
    intros _.
    apply read_be32_some in R1. destruct R1 as [b0 [b1 [b2 [b3 [-> E1]]]]].
    apply read_be32_some in R2. destruct R2 as [c0 [c1 [c2 [c3 [-> E2]]]]].
    apply Z.eqb_eq in Z1, Z2. rewrite E1 in Z1. rewrite E2 in Z2.
    apply be32_value_zero in Z1. apply be32_value_zero in Z2.
    destruct Z1 as [-> [-> [-> ->]]]. destruct Z2 as [-> [-> [-> ->]]].
    eexists; reflexivity.
  - unfold s_unmarshal_http_request_without_version. rewrite H2. reflexivity.
Qed.

Lemma http2_frame_fields_must_be_empty_witness :
  exists c,
    s_unmarshal_http_request_without_version
      sample_http2_request [x00; x00; x00; x03; "G"; "E"; "T"]%byte world0
    = Returned (AWS_OP_ERR, sample_http2_request, c)
               (set_last_error AWS_ERROR_INVALID_ARGUMENT world0).
Proof.
  apply (proj1 (@http2_frame_fields_must_be_empty
                  sample_http2_request world0 eq_refl)).
  vm_compute. discriminate.
Defined.

(** A length that runs past the end of the cursor is answered with the
    empty cursor, and the cursor stays where it is. *)
Lemma advance_past_end (cursor : aws_byte_cursor) (len : Z) :
  cursor_len cursor < len ->
  aws_byte_cursor_advance cursor len = ([], cursor).
Proof.
  intros H. unfold aws_byte_cursor_advance.
  apply Z.ltb_lt in H. rewrite H, orb_true_r. reflexivity.
Qed.

(** C1 does not hold of the source: a length that runs past the end of the
    buffer is not an error.  aws_byte_cursor_advance then hands back an
    empty cursor and the decoder goes on with it: a method declared 5 bytes
    long with 4 bytes left is taken as empty and the 4 bytes are read as the
    length of the path; a header name declared 5 bytes long with 4 bytes
    left is taken as empty and the 4 bytes are read as the length of the
    value.  Both decodes succeed. *)
Theorem over_length_field_is_taken_as_empty :
  aws_apply_java_http_request_changes_to_native_request
    jni_env [x00; x00; x00; x02; x00; x00; x00; x05; x00; x00; x00; x00]
    None (sample_request AWS_HTTP_VERSION_1_1) world0
  = Returned (AWS_OP_SUCCESS,
              {| http_version := AWS_HTTP_VERSION_1_1;
                 request_method := []; request_path := [];
                 headers := []; body_stream := None |}) world0
  /\ s_unmarshal_http_headers
       [] [x00; x00; x00; x05; x00; x00; x00; x00] world0
     = Returned (AWS_OP_SUCCESS, [ {| name := []; value := [] |} ], []) world0
  /\ aws_http_headers_new_from_java_http_headers
       jni_env [x00; x00; x00; x05; x00; x00; x00; x00] world0
     = Returned (Some [ {| name := []; value := [] |} ]) world0.
Proof.
  split; [| split]; vm_compute; reflexivity.
Qed.

(** ** Marshalling *)

Lemma aws_byte_buf_write_fits (buf : aws_byte_buf) (src : list byte) :
  buf_len buf + cursor_len src <= capacity buf ->
  buf_len buf + cursor_len src <= SIZE_MAX_HALF ->
  aws_byte_buf_write buf src
  = (true, {| buffer := buffer buf ++ src; capacity := capacity buf |}).
Proof.
  intros Hcap Hhalf. unfold aws_byte_buf_write.
  fold (cursor_len src). fold (buf_len buf).
  destruct (cursor_len src =? 0) eqn:E.
  - apply cursor_len_zero in E. subst src. rewrite app_nil_r.
    destruct buf; reflexivity.
  - pose proof (cursor_len_nonneg src).
    assert (0 <= buf_len buf) by (unfold buf_len; lia).
    assert (H1 : (SIZE_MAX_HALF <? buf_len buf) = false)
      by (apply Z.ltb_ge; lia).
    assert (H2 : (SIZE_MAX_HALF <? cursor_len src) = false)
      by (apply Z.ltb_ge; lia).
    assert (H3 : (capacity buf <? buf_len buf + cursor_len src) = false)
      by (apply Z.ltb_ge; lia).
    rewrite H1, H2, H3. reflexivity.
Qed.

Lemma aws_byte_buf_reserve_relative_grows (buf : aws_byte_buf) (n : Z)
    (w : World) :
  buf_len buf + n <= SIZE_MAX ->
  exists cap,
    aws_byte_buf_reserve_relative buf n w
    = Returned (AWS_OP_SUCCESS, {| buffer := buffer buf; capacity := cap |}) w
    /\ buf_len buf + n <= cap.
Proof.
  intros H. unfold aws_byte_buf_reserve_relative.
  assert (H1 : (SIZE_MAX <? buf_len buf + n) = false) by (apply Z.ltb_ge; lia).
  rewrite H1.
  destruct (buf_len buf + n <=? capacity buf) eqn:E.
  - exists (capacity buf). apply Z.leb_le in E.
    split; [destruct buf; reflexivity | exact E].
  - exists (buf_len buf + n). split; [reflexivity | lia].
Qed.

Lemma SIZE_MAX_HALF_le : 2 * SIZE_MAX_HALF <= SIZE_MAX.
Proof. vm_compute. discriminate. Qed.

Lemma cursor_len_wire_lp (field : list byte) :
  cursor_len (wire_lp field) = 4 + cursor_len field.
Proof. unfold wire_lp. rewrite cursor_len_app, cursor_len_be32. reflexivity. Qed.

Lemma cursor_len_wire_header (h : aws_http_header) :
  cursor_len (wire_header h) = 8 + cursor_len (name h) + cursor_len (value h).
Proof.
  unfold wire_header. rewrite cursor_len_app, !cursor_len_wire_lp. lia.
Qed.

(** One header is appended as its frame. *)
Lemma s_marshal_http_header_to_buffer_wire (buf : aws_byte_buf)
    (h : aws_http_header) (w : World) :
  header_fits h = true ->
  buf_len buf + cursor_len (wire_header h) <= SIZE_MAX_HALF ->
  exists cap,
    s_marshal_http_header_to_buffer buf (name h) (value h) w
    = Returned (AWS_OP_SUCCESS,
                {| buffer := buffer buf ++ wire_header h; capacity := cap |}) w.
Proof.
  intros Hfit Hlen. rewrite cursor_len_wire_header in Hlen.
  unfold header_fits, fits_uint32 in Hfit.
  apply andb_prop in Hfit. destruct Hfit as [Hn Hv].
  apply Z.leb_le in Hn, Hv.
  pose proof (cursor_len_nonneg (name h)) as Hn0.
  pose proof (cursor_len_nonneg (value h)) as Hv0.
  pose proof SIZE_MAX_HALF_le as Hhalf.
  assert (Hb0 : 0 <= buf_len buf) by (unfold buf_len; lia).
  unfold s_marshal_http_header_to_buffer, sizeof_int.
  rewrite to_size_t_small by lia.
  rewrite !to_uint32_small by lia.
  destruct (@aws_byte_buf_reserve_relative_grows
              buf (4 + 4 + cursor_len (name h) + cursor_len (value h)) w)
    as [cap [Hres Hcap]]; [lia |].
  unfold bind. rewrite Hres. cbn [negb Z.eqb AWS_OP_SUCCESS].
  unfold aws_byte_buf_write_be32, aws_byte_buf_write_from_whole_cursor.
  rewrite aws_byte_buf_write_fits
    by (unfold buf_len in *; cbn [buffer capacity];
        rewrite cursor_len_be32; lia).
  rewrite aws_byte_buf_write_fits
    by (unfold buf_len in *; cbn [buffer capacity];
        rewrite length_app, Nat2Z.inj_add;
        change (Z.of_nat (length (be32_bytes (cursor_len (name h))))) with 4;
        lia).
  rewrite aws_byte_buf_write_fits
    by (unfold buf_len in *; cbn [buffer capacity];
        rewrite !length_app, !Nat2Z.inj_add; fold (cursor_len (name h));
        change (Z.of_nat (length (be32_bytes (cursor_len (name h))))) with 4;
        rewrite cursor_len_be32; lia).
  rewrite aws_byte_buf_write_fits
    by (unfold buf_len in *; cbn [buffer capacity];
        rewrite !length_app, !Nat2Z.inj_add; fold (cursor_len (name h));
        change (Z.of_nat (length (be32_bytes (cursor_len (name h))))) with 4;
        change (Z.of_nat (length (be32_bytes (cursor_len (value h))))) with 4;
        lia).
  cbn [buffer capacity]. exists cap.
  unfold ret, wire_header, wire_lp. rewrite <- !app_assoc. reflexivity.
Qed.

Lemma cursor_len_wire_headers_cons (h : aws_http_header)
    (hs : list aws_http_header) :
  cursor_len (wire_headers (h :: hs))
  = cursor_len (wire_header h) + cursor_len (wire_headers hs).
Proof. cbn [wire_headers flat_map]. apply cursor_len_app. Qed.

Lemma wire_headers_length (hs : list aws_http_header) :
  (length hs <= length (wire_headers hs))%nat.
Proof.
  induction hs as [| h hs IH]; [apply Nat.le_refl |].
  pose proof (cursor_len_wire_headers_cons h hs) as H.
  rewrite cursor_len_wire_header in H.
  pose proof (cursor_len_nonneg (name h)).
  pose proof (cursor_len_nonneg (value h)).
  unfold cursor_len in *. cbn [length]. lia.
Qed.

(** The loop of s_marshall_http_request appends the frames of the headers
    from index [length done] on. *)
Lemma s_marshall_http_request_headers_wire (rest : list aws_http_header) :
  forall (done : list aws_http_header) (buf : aws_byte_buf) (w : World),
    forallb header_fits rest = true ->
    buf_len buf + cursor_len (wire_headers rest) <= SIZE_MAX_HALF ->
    exists cap,
      s_marshall_http_request_headers (length rest) (length done)
                                      (done ++ rest) buf w
      = Returned (AWS_OP_SUCCESS,
                  {| buffer := buffer buf ++ wire_headers rest;
                     capacity := cap |}) w.
Proof.
  induction rest as [| h rest IH]; intros done buf w Hfit Hlen.
  - exists (capacity buf). cbn. rewrite app_nil_r. destruct buf; reflexivity.
  - cbn [forallb] in Hfit. apply andb_prop in Hfit. destruct Hfit as [Hh Hrest].
    rewrite cursor_len_wire_headers_cons in Hlen.
    pose proof (cursor_len_nonneg (wire_headers rest)) as Hr0.
    pose proof (cursor_len_nonneg (wire_header h)) as Hh0.
    cbn [length s_marshall_http_request_headers].
    unfold aws_http_headers_get_index.
    rewrite nth_error_app2, Nat.sub_diag by apply Nat.le_refl.
    cbn [nth_error]. unfold bind at 1.
    change (AWS_FATAL_ASSERT (AWS_OP_SUCCESS =? 0) w) with (Returned tt w).
    cbv iota beta.
    destruct (@s_marshal_http_header_to_buffer_wire buf h w Hh)
      as [cap1 Hone]; [lia |].
    unfold bind. rewrite Hone. cbn [negb Z.eqb AWS_OP_SUCCESS].
    destruct (IH (done ++ [h])
                 {| buffer := buffer buf ++ wire_header h; capacity := cap1 |}
                 w Hrest) as [cap2 Hloop].
    { unfold buf_len in *. cbn [buffer].
      rewrite length_app, Nat2Z.inj_add. fold (cursor_len (wire_header h)).
      lia. }
    rewrite length_app, Nat.add_1_r, <- app_assoc in Hloop.
    cbn [app] in Hloop. rewrite Hloop.
    exists cap2. cbn [buffer wire_headers flat_map].
    rewrite <- app_assoc. reflexivity.
Qed.

(** Marshalling a request into an empty buffer produces its frame. *)
Lemma s_marshall_http_request_wire (r : aws_http_message) (cap : Z)
    (w : World) :
  request_fits r = true ->
  exists cap',
    s_marshall_http_request r (aws_byte_buf_init cap) w
    = Returned (AWS_OP_SUCCESS,
                {| buffer := wire_request r; capacity := cap' |}) w.
Proof.
  unfold request_fits. intros Hfit.
  apply andb_prop in Hfit. destruct Hfit as [Hfit Hlen].
  apply andb_prop in Hfit. destruct Hfit as [Hfit Hhs].
  apply andb_prop in Hfit. destruct Hfit as [Hm Hp].
  apply Z.leb_le in Hlen. unfold fits_uint32 in Hm, Hp.
  apply Z.leb_le in Hm, Hp.
  unfold wire_request in Hlen.
  rewrite !cursor_len_app, !cursor_len_wire_lp, cursor_len_be32 in Hlen.
  pose proof (cursor_len_nonneg (request_method r)) as Hm0.
  pose proof (cursor_len_nonneg (request_path r)) as Hp0.
  pose proof (cursor_len_nonneg (wire_headers (headers r))) as Hh0.
  pose proof SIZE_MAX_HALF_le as Hhalf.
  unfold s_marshall_http_request, aws_http_message_get_request_method,
    aws_http_message_get_request_path, sizeof_int.
  unfold bind at 1.
  change (AWS_FATAL_ASSERT (AWS_OP_SUCCESS =? 0) w) with (Returned tt w).
  cbv iota beta. unfold bind at 1.
  change (AWS_FATAL_ASSERT (AWS_OP_SUCCESS =? 0) w) with (Returned tt w).
  cbv iota beta.
  rewrite to_size_t_small by lia.
  destruct (@aws_byte_buf_reserve_relative_grows
              (aws_byte_buf_init cap)
              (4 + 4 + 4 + cursor_len (request_method r)
               + cursor_len (request_path r)) w)
    as [cap1 [Hres Hcap]];
    [change (buf_len (aws_byte_buf_init cap)) with 0; lia |].
  change (buf_len (aws_byte_buf_init cap)) with 0 in Hcap.
  unfold bind at 1. rewrite Hres. cbn [negb Z.eqb AWS_OP_SUCCESS].
  rewrite !to_uint32_small
    by (try lia; unfold UINT32_MAX;
        destruct (aws_http_message_get_protocol_version r); cbn; lia).
  unfold aws_byte_buf_write_be32, aws_byte_buf_write_from_whole_cursor,
    aws_http_message_get_protocol_version, aws_http_message_get_headers,
    aws_http_message_get_header_count.
  cbn [buffer aws_byte_buf_init].
  rewrite aws_byte_buf_write_fits
    by (unfold buf_len; cbn [buffer capacity length];
        rewrite cursor_len_be32; lia).
  rewrite aws_byte_buf_write_fits
    by (unfold buf_len; cbn [buffer capacity app];
        rewrite cursor_len_be32;
        change (Z.of_nat (length (be32_bytes
                                    (version_code (http_version r))))) with 4;
        lia).
  rewrite aws_byte_buf_write_fits
    by (unfold buf_len; cbn [buffer capacity app];
        rewrite !length_app, !Nat2Z.inj_add;
        change (Z.of_nat (length (be32_bytes
                                    (version_code (http_version r))))) with 4;
        change (Z.of_nat (length (be32_bytes
                                    (cursor_len (request_method r))))) with 4;
        lia).
  rewrite aws_byte_buf_write_fits
    by (unfold buf_len; cbn [buffer capacity app];
        rewrite !length_app, !Nat2Z.inj_add;
        fold (cursor_len (request_method r));
        change (Z.of_nat (length (be32_bytes
                                    (version_code (http_version r))))) with 4;
        change (Z.of_nat (length (be32_bytes
                                    (cursor_len (request_method r))))) with 4;
        rewrite cursor_len_be32; lia).
  rewrite aws_byte_buf_write_fits
    by (unfold buf_len; cbn [buffer capacity app];
        rewrite !length_app, !Nat2Z.inj_add;
        fold (cursor_len (request_method r));
        change (Z.of_nat (length (be32_bytes
                                    (version_code (http_version r))))) with 4;
        change (Z.of_nat (length (be32_bytes
                                    (cursor_len (request_method r))))) with 4;
        change (Z.of_nat (length (be32_bytes
                                    (cursor_len (request_path r))))) with 4;
        lia).
  cbn [buffer capacity app].
  destruct (@s_marshall_http_request_headers_wire
              (headers r) []
              {| buffer := (((be32_bytes (version_code (http_version r))
                              ++ be32_bytes (cursor_len (request_method r)))
                             ++ request_method r)
                            ++ be32_bytes (cursor_len (request_path r)))
                           ++ request_path r;
                 capacity := cap1 |} w Hhs) as [cap2 Hloop].
  { unfold buf_len. cbn [buffer].
    rewrite !length_app, !Nat2Z.inj_add.
    fold (cursor_len (request_method r)). fold (cursor_len (request_path r)).
    change (Z.of_nat (length (be32_bytes
                                (version_code (http_version r))))) with 4.
    change (Z.of_nat (length (be32_bytes
                                (cursor_len (request_method r))))) with 4.
    change (Z.of_nat (length (be32_bytes
                                (cursor_len (request_path r))))) with 4.
    lia. }
  cbn [app length] in Hloop. rewrite Hloop.
  exists cap2. cbn [buffer]. unfold wire_request, wire_lp.
  rewrite <- !app_assoc. reflexivity.
Qed.

(** ** The round trip *)

Lemma version_code_range (v : aws_http_version) :
  0 <= version_code v <= UINT32_MAX.
Proof. unfold UINT32_MAX. destruct v; cbn; lia. Qed.

Lemma http2_fields_empty_inv (m : aws_http_message) :
  http2_fields_empty m = true ->
  is_http2 (http_version m) = true ->
  request_method m = [] /\ request_path m = [].
Proof.
  unfold http2_fields_empty. intros H H2. rewrite H2 in H.
  apply andb_prop in H. destruct H as [Hm Hp].
  split; apply cursor_len_zero; assumption.
Qed.

(** The frame of a request is read back into a request of the same version:
    the headers there are dropped and replaced, method and path are set for
    HTTP/1, and nothing else is touched. *)
Lemma apply_wire_request (env : JNIEnv) (r dst : aws_http_message)
    (w : World) :
  request_fits r = true ->
  http2_fields_empty r = true ->
  http_version dst = http_version r ->
  http2_fields_empty dst = true ->
  aws_apply_java_http_request_changes_to_native_request
    env (wire_request r) None dst w
  = Returned (AWS_OP_SUCCESS, decoded_into dst r) w.
Proof.
  unfold request_fits. intros Hfit Hr2 Hversion Hdst2.
  apply andb_prop in Hfit. destruct Hfit as [Hfit Hlen].
  apply andb_prop in Hfit. destruct Hfit as [Hfit Hhs].
  apply andb_prop in Hfit. destruct Hfit as [Hm Hp].
  apply Z.leb_le in Hlen. unfold wire_request in *.
  (* the sizes of the tails of the frame *)
  assert (Hlen1 : cursor_len (wire_lp (request_method r)
                              ++ wire_lp (request_path r)
                              ++ wire_headers (headers r)) <= SIZE_MAX_HALF).
  { rewrite cursor_len_app, cursor_len_be32 in Hlen. lia. }
  assert (Hlen2 : cursor_len (wire_lp (request_path r)
                              ++ wire_headers (headers r)) <= SIZE_MAX_HALF).
  { rewrite cursor_len_app, cursor_len_wire_lp in Hlen1.
    pose proof (cursor_len_nonneg (request_method r)). lia. }
  assert (Hlen3 : cursor_len (wire_headers (headers r)) <= SIZE_MAX_HALF).
  { rewrite cursor_len_app, cursor_len_wire_lp in Hlen2.
    pose proof (cursor_len_nonneg (request_path r)). lia. }
  destruct (read_lp Hm Hlen1) as [Rm Am].
  destruct (read_lp Hp Hlen2) as [Rp Ap].
  unfold aws_apply_java_http_request_changes_to_native_request,
    s_unmarshal_http_request_to_get_version.
  rewrite (read_be32_prefix (version_code_range (http_version r)) Hlen).
  unfold bind at 1. unfold ret at 1. cbv iota beta.
  unfold aws_http_headers_clear, aws_http_message_get_headers.
  replace (version_code (http_version r)
           =? version_code (aws_http_message_get_protocol_version
                              (set_headers [] dst))) with true
    by (cbn [aws_http_message_get_protocol_version set_headers http_version];
        rewrite Hversion; symmetry; apply Z.eqb_refl).
  cbn [negb].
  unfold s_unmarshal_http_request_without_version.
  cbn [aws_http_message_get_protocol_version set_headers http_version].
  destruct (is_http2 (http_version dst)) eqn:H2; cbn [negb].
  - (* HTTP/2: both fields of the frame are empty *)
    assert (H2r : is_http2 (http_version r) = true) by (rewrite <- Hversion; exact H2).
    destruct (http2_fields_empty_inv _ Hr2 H2r) as [Emr Epr].
    destruct (http2_fields_empty_inv _ Hdst2 H2) as [Emd Epd].
    rewrite Emr, Epr in *.
    change (cursor_len []) with 0 in Rm, Rp. cbn [app] in Rm, Rp.
    rewrite Rm. change (negb (0 =? 0)) with false. cbv iota.
    rewrite Rp. change (negb (0 =? 0)) with false. cbv iota.
    unfold bind.
    rewrite s_unmarshal_http_request_headers_wire
      by (try assumption; pose proof (wire_headers_length (headers r)); lia).
    cbn [negb Z.eqb AWS_OP_SUCCESS ret headers set_headers app].
    clear - Hversion Emr Epr Emd Epd.
    destruct dst, r; cbn in *; subst; reflexivity.
  - rewrite Rm, Am. cbn [aws_http_message_set_request_method].
    change (negb (AWS_OP_SUCCESS =? AWS_OP_SUCCESS)) with false. cbv iota.
    rewrite Rp, Ap. cbn [aws_http_message_set_request_path].
    change (negb (AWS_OP_SUCCESS =? AWS_OP_SUCCESS)) with false. cbv iota.
    unfold bind.
    rewrite s_unmarshal_http_request_headers_wire
      by (try assumption; pose proof (wire_headers_length (headers r)); lia).
    cbn. unfold decoded_into. rewrite <- Hversion. reflexivity.
Qed.

(** C2, as the source has it: a request whose fields have lengths below
    2^32, whose frame is no longer than SIZE_MAX/2 bytes and whose method and
    path are empty when its version is HTTP/2 is marshalled into its frame,
    and the frame, applied to a request of the same version, gives back the
    version, the method, the path and the headers in their order. *)
Theorem marshalled_request_is_read_back (env : JNIEnv)
    (r dst : aws_http_message) (cap : Z) (w w1 : World) :
  request_fits r = true ->
  http2_fields_empty r = true ->
  http_version dst = http_version r ->
  http2_fields_empty dst = true ->
  exists buf,
    s_marshall_http_request r (aws_byte_buf_init cap) w
    = Returned (AWS_OP_SUCCESS, buf) w
    /\ buffer buf = wire_request r
    /\ aws_apply_java_http_request_changes_to_native_request
         env (buffer buf) None dst w1
       = Returned (AWS_OP_SUCCESS, decoded_into dst r) w1.
Proof.
  intros Hfit Hr2 Hversion Hdst2.
  destruct (@s_marshall_http_request_wire r cap w Hfit) as [cap' Hm].
  eexists. split; [exact Hm |]. split; [reflexivity |].
  cbn [buffer]. apply apply_wire_request; assumption.
Qed.

Lemma marshalled_request_is_read_back_witness :
  exists buf,
    s_marshall_http_request (sample_request AWS_HTTP_VERSION_1_1)
                            (aws_byte_buf_init 1024) world0
    = Returned (AWS_OP_SUCCESS, buf) world0
    /\ buffer buf = wire_request (sample_request AWS_HTTP_VERSION_1_1)
    /\ aws_apply_java_http_request_changes_to_native_request
         jni_env (buffer buf) None
         (set_headers [empty_header] (sample_request AWS_HTTP_VERSION_1_1))
         world0
       = Returned (AWS_OP_SUCCESS,
                   decoded_into
                     (set_headers [empty_header]
                                  (sample_request AWS_HTTP_VERSION_1_1))
                     (sample_request AWS_HTTP_VERSION_1_1)) world0.
Proof.
  apply marshalled_request_is_read_back; vm_compute; reflexivity.
Defined.

(** C2, as the spec states it, fails for an HTTP/2 request with a method and
    a path: it is marshalled with both, and its own frame is rejected when
    applied to it. *)
Lemma http2_request_with_method_is_not_read_back :
  exists buf,
    s_marshall_http_request (sample_request AWS_HTTP_VERSION_2)
                            (aws_byte_buf_init 1024) world0
    = Returned (AWS_OP_SUCCESS, buf) world0
    /\ buffer buf = wire_request (sample_request AWS_HTTP_VERSION_2)
    /\ aws_apply_java_http_request_changes_to_native_request
         jni_env (buffer buf) None (sample_request AWS_HTTP_VERSION_2) world0
       = Returned (AWS_OP_ERR,
                   set_headers [] (sample_request AWS_HTTP_VERSION_2))
                  (set_exception true
                     (set_last_error AWS_ERROR_INVALID_ARGUMENT world0)).
Proof.
  eexists. split; [vm_compute; reflexivity |].
  split; vm_compute; reflexivity.
Qed.

(** ** Header-only frames *)

Lemma aws_marshal_http_headers_to_dynamic_buffer_wire
    (hs : list aws_http_header) :
  forall (buf : aws_byte_buf) (w : World),
    forallb header_fits hs = true ->
    buf_len buf + cursor_len (wire_headers hs) <= SIZE_MAX_HALF ->
    exists cap,
      aws_marshal_http_headers_to_dynamic_buffer buf hs w
      = Returned (AWS_OP_SUCCESS,
                  {| buffer := buffer buf ++ wire_headers hs;
                     capacity := cap |}) w.
Proof.
  induction hs as [| h hs IH]; intros buf w Hfit Hlen.
  - exists (capacity buf). cbn. rewrite app_nil_r. destruct buf; reflexivity.
  - cbn [forallb] in Hfit. apply andb_prop in Hfit. destruct Hfit as [Hh Hhs].
    rewrite cursor_len_wire_headers_cons in Hlen.
    pose proof (cursor_len_nonneg (wire_headers hs)) as Hr0.
    pose proof (cursor_len_nonneg (wire_header h)) as Hh0.
    cbn [aws_marshal_http_headers_to_dynamic_buffer].
    destruct (@s_marshal_http_header_to_buffer_wire buf h w Hh)
      as [cap1 Hone]; [lia |].
    unfold bind. rewrite Hone. cbn [negb Z.eqb AWS_OP_SUCCESS].
    destruct (IH {| buffer := buffer buf ++ wire_header h; capacity := cap1 |}
                 w Hhs) as [cap2 Hloop].
    { unfold buf_len in *. cbn [buffer].
      rewrite length_app, Nat2Z.inj_add. fold (cursor_len (wire_header h)).
      lia. }
    rewrite Hloop. exists cap2. cbn [buffer wire_headers flat_map].
    rewrite <- app_assoc. reflexivity.
Qed.

Lemma s_unmarshal_http_headers_loop_wire (hs : list aws_http_header) :
  forall (fuel : nat) (before : aws_http_headers) (w : World),
    forallb header_fits hs = true ->
    cursor_len (wire_headers hs) <= SIZE_MAX_HALF ->
    (length hs < fuel)%nat ->
    s_unmarshal_http_headers_loop fuel before (wire_headers hs) w
    = Returned (AWS_OP_SUCCESS, before ++ hs, []) w.
Proof.
  induction hs as [| h hs IH]; intros fuel before w Hfit Hlen Hfuel.
  - destruct fuel; cbn; rewrite app_nil_r; reflexivity.
  - destruct fuel as [| fuel]; [cbn in Hfuel; lia |].
    cbn [forallb] in Hfit. apply andb_prop in Hfit. destruct Hfit as [Hh Hhs].
    unfold header_fits in Hh. apply andb_prop in Hh. destruct Hh as [Hn Hv].
    cbn [wire_headers flat_map] in *. fold (wire_headers hs) in *.
    unfold wire_header in *. rewrite <- !app_assoc in *.
    assert (Hlen2 : cursor_len (wire_lp (value h) ++ wire_headers hs)
                    <= SIZE_MAX_HALF).
    { rewrite cursor_len_app, cursor_len_wire_lp in Hlen.
      pose proof (cursor_len_nonneg (name h)). lia. }
    assert (Hlen3 : cursor_len (wire_headers hs) <= SIZE_MAX_HALF).
    { rewrite cursor_len_app, cursor_len_wire_lp in Hlen2.
      pose proof (cursor_len_nonneg (value h)). lia. }
    assert (Hnz : (cursor_len (wire_lp (name h) ++ wire_lp (value h)
                                ++ wire_headers hs) =? 0) = false).
    { apply Z.eqb_neq. rewrite cursor_len_app, cursor_len_wire_lp.
      pose proof (cursor_len_nonneg (name h)).
      pose proof (cursor_len_nonneg (wire_lp (value h) ++ wire_headers hs)).
      lia. }
    cbn [s_unmarshal_http_headers_loop]. rewrite Hnz.
    destruct (read_lp Hn Hlen) as [R1 A1]. rewrite R1, A1.
    destruct (read_lp Hv Hlen2) as [R2 A2]. rewrite R2, A2.
    cbn [aws_http_headers_add_header].
    rewrite (IH fuel _ w Hhs Hlen3) by (cbn in Hfuel; lia).
    rewrite <- app_assoc. cbn [app]. destruct h as [n v]. reflexivity.
Qed.

(** X14: a header list whose names and values have lengths below 2^32 is
    marshalled into its frame and read back from it in the same order. *)
Lemma marshalled_headers_are_read_back (env : JNIEnv)
    (hs : list aws_http_header) (cap : Z) (w w1 : World) :
  forallb header_fits hs = true ->
  cursor_len (wire_headers hs) <= SIZE_MAX_HALF ->
  exists buf,
    aws_marshal_http_headers_to_dynamic_buffer (aws_byte_buf_init cap) hs w
    = Returned (AWS_OP_SUCCESS, buf) w
    /\ aws_http_headers_new_from_java_http_headers env (buffer buf) w1
       = Returned (Some hs) w1.
Proof.
  intros Hfit Hlen.
  destruct (@aws_marshal_http_headers_to_dynamic_buffer_wire
              hs (aws_byte_buf_init cap) w Hfit) as [cap' Hm].
  { change (buf_len (aws_byte_buf_init cap)) with 0. lia. }
  eexists. split; [exact Hm |].
  cbn [buffer aws_byte_buf_init app].
  unfold aws_http_headers_new_from_java_http_headers,
    s_unmarshal_http_headers, bind.
  rewrite s_unmarshal_http_headers_loop_wire
    by (try assumption; pose proof (wire_headers_length hs); lia).
  reflexivity.
Qed.

(** * Further properties of the code *)

(** ** The adapter *)

Lemma byte_buf_same (dest : aws_byte_buf) :
  {| buffer := buffer dest ++ []; capacity := capacity dest |} = dest.
Proof. rewrite app_nil_r. destruct dest; reflexivity. Qed.

(** X1: a read only ever appends to the destination, never past its
    capacity, and appends nothing unless it succeeds. *)
Theorem read_appends_within_capacity
    (impl : aws_http_request_body_stream_impl) (dest : aws_byte_buf)
    (w : World) :
  buf_len dest <= capacity dest ->
  capacity dest <= SIZE_MAX ->
  exists r impl' added w',
    s_aws_input_stream_read impl dest w
    = Returned (r, impl',
                {| buffer := buffer dest ++ added;
                   capacity := capacity dest |}) w'
    /\ buf_len dest + cursor_len added <= capacity dest
    /\ (r <> AWS_OP_SUCCESS -> added = []).
Proof.
  intros Hlen Hcap.
  assert (Hidle : buf_len dest + cursor_len [] <= capacity dest)
    by (change (cursor_len []) with 0; lia).
  unfold s_aws_input_stream_read.
  destruct (is_valid impl); cbn [negb].
  2:{ exists AWS_OP_ERR, impl, [], (set_last_error AWS_ERROR_HTTP_INVALID_BODY_STREAM w).
      rewrite byte_buf_same. cbn. auto. }
  destruct (http_request_body_stream impl) as [stream |].
  2:{ exists AWS_OP_SUCCESS, (set_body_done true impl), [], w.
      rewrite byte_buf_same. cbn. auto. }
  destruct (body_done impl).
  { exists AWS_OP_SUCCESS, impl, [], w. rewrite byte_buf_same. cbn. auto. }
  unfold bind, aws_jni_acquire_thread_env.
  destruct (jni_attach w (jni_clock w)).
  2:{ exists AWS_OP_ERR, impl, [], (tick w). rewrite byte_buf_same. cbn. auto. }
  cbn -[firstn Z.to_nat to_size_t].
  set (o := jni_callback w (S (jni_clock w))).
  destruct (jni_exception w || threw o).
  - do 4 eexists. cbn -[firstn Z.to_nat to_size_t].
    rewrite byte_buf_same. split; [reflexivity |]. auto.
  - do 4 eexists. cbn -[firstn Z.to_nat to_size_t].
    split; [reflexivity |]. split; [| intros H; exfalso; apply H; reflexivity].
    assert (Hroom : to_size_t (capacity dest - buf_len dest)
                    = capacity dest - buf_len dest).
    { apply to_size_t_small. unfold buf_len in *. lia. }
    rewrite Hroom, Z.sub_0_r, Nat2Z.id, firstn_all.
    unfold cursor_len. rewrite length_firstn.
    unfold buf_len in *. lia.
Qed.

Lemma read_appends_within_capacity_witness :
  exists r impl' added w',
    s_aws_input_stream_read (sample_impl (Some sample_stream) false true)
      {| buffer := ["a"]%byte; capacity := 4 |} (world_with writing_producer)
    = Returned (r, impl', {| buffer := ["a"]%byte ++ added; capacity := 4 |}) w'
    /\ 1 + cursor_len added <= 4
    /\ (r <> AWS_OP_SUCCESS -> added = []).
Proof.
  apply (@read_appends_within_capacity
           (sample_impl (Some sample_stream) false true)
           {| buffer := ["a"]%byte; capacity := 4 |}
           (world_with writing_producer));
    vm_compute; discriminate.
Defined.

(** X2: neither read nor seek ever changes the producer handle or the
    is_valid flag of the adapter, whatever the producer and the JVM do; both
    always return. *)
Theorem read_and_seek_keep_handle_and_validity
    (impl : aws_http_request_body_stream_impl) (w : World) :
  (forall dest,
      exists r impl' dest' w',
        s_aws_input_stream_read impl dest w = Returned (r, impl', dest') w'
        /\ http_request_body_stream impl' = http_request_body_stream impl
        /\ is_valid impl' = is_valid impl)
  /\ (forall offset basis,
        exists r impl' w',
          s_aws_input_stream_seek impl offset basis w = Returned (r, impl') w'
          /\ http_request_body_stream impl' = http_request_body_stream impl
          /\ is_valid impl' = is_valid impl).
Proof.
  split.
  - intros dest. unfold s_aws_input_stream_read.
    destruct (is_valid impl) eqn:Hv; cbn [negb];
      [| do 4 eexists; split; [reflexivity | auto]].
    destruct (http_request_body_stream impl) as [stream |] eqn:Hs;
      [| do 4 eexists; split; [reflexivity | cbn; auto]].
    destruct (body_done impl);
      [do 4 eexists; split; [reflexivity | auto] |].
    unfold bind, aws_jni_acquire_thread_env.
    destruct (jni_attach w (jni_clock w));
      [| do 4 eexists; split; [reflexivity | auto]].
    cbn -[firstn Z.to_nat to_size_t].
    destruct (jni_exception w || threw (jni_callback w (S (jni_clock w))));
      cbn -[firstn Z.to_nat to_size_t];
      do 4 eexists; (split; [reflexivity | cbn; auto]).
  - intros offset basis. unfold s_aws_input_stream_seek.
    destruct (is_valid impl) eqn:Hv; cbn [negb];
      [| do 3 eexists; split; [reflexivity | auto]].
    destruct (http_request_body_stream impl) as [stream |] eqn:Hs;
      [| do 3 eexists; split; [reflexivity | cbn; auto]].
    destruct (negb (is_begin basis) || negb (offset =? 0));
      [do 3 eexists; split; [reflexivity | auto] |].
    unfold bind, aws_jni_acquire_thread_env.
    destruct (jni_attach w (jni_clock w));
      [| do 3 eexists; split; [reflexivity | auto]].
    cbn.
    destruct (returned_bool (jni_callback w (S (jni_clock w)))); cbn;
      destruct (jni_exception w || threw (jni_callback w (S (jni_clock w))));
      cbn; do 3 eexists; (split; [reflexivity | cbn; auto]).
Qed.

(** X3: when no thread env can be acquired, read, seek and get_length on an
    adapter with a producer fail with a bare AWS_OP_ERR: no error code is
    raised, nothing is invoked, and the adapter, the destination and the
    length are as they were. *)
Theorem detached_thread_fails_quietly
    (impl : aws_http_request_body_stream_impl) (stream : jobject) (w : World) :
  is_valid impl = true ->
  http_request_body_stream impl = Some stream ->
  jni_attach w (jni_clock w) = false ->
  (body_done impl = false ->
   forall dest,
     s_aws_input_stream_read impl dest w
     = Returned (AWS_OP_ERR, impl, dest) (tick w))
  /\ s_aws_input_stream_seek impl 0 AWS_SSB_BEGIN w
     = Returned (AWS_OP_ERR, impl) (tick w)
  /\ (forall l,
        s_aws_input_stream_get_length impl (Some l) w
        = Returned (AWS_OP_ERR, Some l) (tick w))
  /\ last_error (tick w) = last_error w
  /\ jni_invoked (tick w) = jni_invoked w.
Proof.
  intros Hvalid Hstream Hattach.
  split; [| split; [| split; [| split; reflexivity]]].
  - intros Hdone dest. unfold s_aws_input_stream_read.
    rewrite Hvalid, Hstream, Hdone. cbn.
    unfold bind, aws_jni_acquire_thread_env. rewrite Hattach. reflexivity.
  - unfold s_aws_input_stream_seek. rewrite Hvalid, Hstream. cbn.
    unfold bind, aws_jni_acquire_thread_env. rewrite Hattach. reflexivity.
  - intros l. unfold s_aws_input_stream_get_length. rewrite Hstream. cbn.
    unfold bind, aws_jni_acquire_thread_env. rewrite Hattach. reflexivity.
Qed.

Lemma detached_thread_fails_quietly_witness :
  s_aws_input_stream_seek (sample_impl (Some sample_stream) true true)
                          0 AWS_SSB_BEGIN detached_world
  = Returned (AWS_OP_ERR, sample_impl (Some sample_stream) true true)
             (tick detached_world).
Proof.
  exact (proj1 (proj2 (@detached_thread_fails_quietly
                         (sample_impl (Some sample_stream) true true)
                         sample_stream detached_world
                         eq_refl eq_refl eq_refl))).
Defined.

(** X4: get_length aborts on a NULL out-parameter, fails without touching
    the length when there is no producer, and otherwise stores what
    getLength returned, also when the call left an exception pending and the
    result is a callback failure. *)
Theorem get_length_stores_before_checking
    (impl : aws_http_request_body_stream_impl) (w : World) :
  s_aws_input_stream_get_length impl None w = Aborted
  /\ (http_request_body_stream impl = None ->
      forall l,
        s_aws_input_stream_get_length impl (Some l) w
        = Returned (AWS_OP_ERR, Some l) w)
  /\ (forall stream l,
        http_request_body_stream impl = Some stream ->
        jni_attach w (jni_clock w) = true ->
        let o := jni_callback w (S (jni_clock w)) in
        exists w',
          s_aws_input_stream_get_length impl (Some l) w
          = Returned (if jni_exception w || threw o
                      then AWS_OP_ERR else AWS_OP_SUCCESS,
                      Some (returned_long o)) w'
          /\ jni_invoked w'
             = {| jc_receiver := stream; jc_method := get_length |}
               :: jni_invoked w
          /\ jni_exception w' = false
          /\ (jni_exception w || threw o = true ->
              last_error w' = AWS_ERROR_HTTP_CALLBACK_FAILURE)).
Proof.
  split; [reflexivity |]. split.
  - intros Hnone l. unfold s_aws_input_stream_get_length.
    rewrite Hnone. reflexivity.
  - intros stream l Hstream Hattach o.
    unfold s_aws_input_stream_get_length. rewrite Hstream. cbn.
    unfold bind, aws_jni_acquire_thread_env. rewrite Hattach. cbn.
    fold o. destruct (jni_exception w || threw o); cbn;
      eexists; (split; [reflexivity |]); repeat split; discriminate.
Qed.

Lemma get_length_stores_before_checking_witness :
  exists w',
    s_aws_input_stream_get_length (sample_impl (Some sample_stream) false true)
                                  (Some 0) (world_with raising_producer)
    = Returned (AWS_OP_ERR, Some 7) w'.
Proof.
  destruct (proj2 (proj2 (@get_length_stores_before_checking
                            (sample_impl (Some sample_stream) false true)
                            (world_with raising_producer)))
                  sample_stream 0 eq_refl eq_refl) as [w' [H _]].
  exists w'. exact H.
Defined.

(** ** How decoding ends *)

(** The loop of s_unmarshal_http_headers ends with the cursor used up and
    the world as it was, or with an invalid-argument error; either way the
    headers it was given are still there, in front of the ones it added. *)
Lemma s_unmarshal_http_headers_loop_outcome (fuel : nat) :
  forall (hs : aws_http_headers) (request_blob : aws_byte_cursor) (w : World),
    (length request_blob < fuel)%nat ->
    exists r added c w',
      s_unmarshal_http_headers_loop fuel hs request_blob w
      = Returned (r, hs ++ added, c) w'
      /\ ((r = AWS_OP_SUCCESS /\ c = [] /\ w' = w)
          \/ (r = AWS_OP_ERR
              /\ w' = set_last_error AWS_ERROR_INVALID_ARGUMENT w)).
Proof.
  induction fuel as [| fuel IH]; intros hs blob w Hfuel; [lia |].
  cbn [s_unmarshal_http_headers_loop].
  destruct (cursor_len blob =? 0) eqn:Hz.
  { apply cursor_len_zero in Hz. subst blob.
    exists AWS_OP_SUCCESS, [], [], w. rewrite app_nil_r. auto. }
  destruct (aws_byte_cursor_read_be32 blob) as [[len1 blob1] |] eqn:R1.
  2:{ exists AWS_OP_ERR, [], blob,
        (set_last_error AWS_ERROR_INVALID_ARGUMENT w).
      rewrite app_nil_r. auto. }
  apply read_be32_length in R1.
  pose proof (advance_length blob1 len1) as A1.
  destruct (aws_byte_cursor_advance blob1 len1) as [header_name blob2].
  cbn [snd] in A1.
  destruct (aws_byte_cursor_read_be32 blob2) as [[len2 blob3] |] eqn:R2.
  2:{ exists AWS_OP_ERR, [], blob2,
        (set_last_error AWS_ERROR_INVALID_ARGUMENT w).
      rewrite app_nil_r. auto. }
  apply read_be32_length in R2.
  pose proof (advance_length blob3 len2) as A2.
  destruct (aws_byte_cursor_advance blob3 len2) as [header_value blob4].
  cbn [snd] in A2.
  cbn [aws_http_headers_add_header].
  destruct (IH (hs ++ [ {| name := header_name; value := header_value |} ])
               blob4 w) as [r [added [c [w' [Hrun Hend]]]]]; [lia |].
  exists r, ({| name := header_name; value := header_value |} :: added), c, w'.
  rewrite Hrun, <- app_assoc. auto.
Qed.

(** The loop of s_unmarshal_http_request_without_version does the same to
    the headers of the request and touches nothing else of it. *)
Lemma s_unmarshal_http_request_headers_outcome (fuel : nat) :
  forall (message : aws_http_message) (request_blob : aws_byte_cursor)
         (w : World),
    (length request_blob < fuel)%nat ->
    exists r added c w',
      s_unmarshal_http_request_headers fuel message request_blob w
      = Returned (r, set_headers (headers message ++ added) message, c) w'
      /\ ((r = AWS_OP_SUCCESS /\ c = [] /\ w' = w)
          \/ (r = AWS_OP_ERR
              /\ w' = set_last_error AWS_ERROR_INVALID_ARGUMENT w)).
Proof.
  induction fuel as [| fuel IH]; intros message blob w Hfuel; [lia |].
  cbn [s_unmarshal_http_request_headers].
  assert (Hsame : set_headers (headers message ++ []) message = message)
    by (rewrite app_nil_r; destruct message; reflexivity).
  destruct (cursor_len blob =? 0) eqn:Hz.
  { apply cursor_len_zero in Hz. subst blob.
    exists AWS_OP_SUCCESS, [], [], w. rewrite Hsame. auto. }
  destruct (aws_byte_cursor_read_be32 blob) as [[len1 blob1] |] eqn:R1.
  2:{ exists AWS_OP_ERR, [], blob,
        (set_last_error AWS_ERROR_INVALID_ARGUMENT w).
      rewrite Hsame. auto. }
  apply read_be32_length in R1.
  pose proof (advance_length blob1 len1) as A1.
  destruct (aws_byte_cursor_advance blob1 len1) as [header_name blob2].
  cbn [snd] in A1.
  destruct (aws_byte_cursor_read_be32 blob2) as [[len2 blob3] |] eqn:R2.
  2:{ exists AWS_OP_ERR, [], blob2,
        (set_last_error AWS_ERROR_INVALID_ARGUMENT w).
      rewrite Hsame. auto. }
  apply read_be32_length in R2.
  pose proof (advance_length blob3 len2) as A2.
  destruct (aws_byte_cursor_advance blob3 len2) as [header_value blob4].
  cbn [snd] in A2.
  cbn [aws_http_message_add_header aws_http_headers_add_header].
  destruct (IH (set_headers
                  (headers message
                   ++ [ {| name := header_name; value := header_value |} ])
                  message) blob4 w) as [r [added [c [w' [Hrun Hend]]]]];
    [lia |].
  exists r, ({| name := header_name; value := header_value |} :: added), c, w'.
  rewrite Hrun. cbn [headers set_headers]. rewrite <- app_assoc. auto.
Qed.

(** X5: decoding a header frame always returns, and in one of two ways:
    with success, the whole frame consumed and no error raised, or with
    AWS_OP_ERR and the invalid-argument error; the headers the set already
    held stay in front, in their order.  The JNI entry point turns the
    second way into NULL with a Java exception pending. *)
Theorem header_decoding_outcome (env : JNIEnv) (hs : aws_http_headers)
    (marshalled_headers : list byte) (w : World) :
  (exists r added c w',
      s_unmarshal_http_headers hs marshalled_headers w
      = Returned (r, hs ++ added, c) w'
      /\ ((r = AWS_OP_SUCCESS /\ c = [] /\ w' = w)
          \/ (r = AWS_OP_ERR
              /\ w' = set_last_error AWS_ERROR_INVALID_ARGUMENT w)))
  /\ ((exists decoded,
          aws_http_headers_new_from_java_http_headers env marshalled_headers w
          = Returned (Some decoded) w)
      \/ aws_http_headers_new_from_java_http_headers env marshalled_headers w
         = Returned None
             (set_exception true
                (set_last_error AWS_ERROR_INVALID_ARGUMENT w))).
Proof.
  split.
  - unfold s_unmarshal_http_headers.
    apply s_unmarshal_http_headers_loop_outcome. lia.
  - unfold aws_http_headers_new_from_java_http_headers,
      s_unmarshal_http_headers, bind.
    destruct (@s_unmarshal_http_headers_loop_outcome
                (S (length marshalled_headers)) [] marshalled_headers w)
      as [r [added [c [w' [Hrun Hend]]]]]; [lia |].
    rewrite Hrun.
    destruct Hend as [[-> [-> ->]] | [-> ->]].
    + left. eexists. reflexivity.
    + right. reflexivity.
Qed.

(** What follows the version is decoded into the request without touching
    its version or its body stream; success takes at least the two length
    prefixes and leaves nothing of the frame unread. *)
Lemma s_unmarshal_http_request_without_version_outcome
    (message : aws_http_message) (request_blob : aws_byte_cursor) (w : World) :
  exists r m c w',
    s_unmarshal_http_request_without_version message request_blob w
    = Returned (r, m, c) w'
    /\ http_version m = http_version message
    /\ body_stream m = body_stream message
    /\ ((r = AWS_OP_SUCCESS /\ c = [] /\ w' = w
         /\ (8 <= length request_blob)%nat)
        \/ (r = AWS_OP_ERR
            /\ w' = set_last_error AWS_ERROR_INVALID_ARGUMENT w)).
Proof.
  unfold s_unmarshal_http_request_without_version.
  destruct (negb (is_http2 (aws_http_message_get_protocol_version message))).
  - destruct (aws_byte_cursor_read_be32 request_blob)
      as [[len1 blob1] |] eqn:R1;
      [| do 4 eexists; split; [reflexivity | auto]].
    apply read_be32_length in R1.
    pose proof (advance_length blob1 len1) as A1.
    destruct (aws_byte_cursor_advance blob1 len1) as [method blob2].
    cbn [snd] in A1.
    cbn [aws_http_message_set_request_method].
    change (negb (AWS_OP_SUCCESS =? AWS_OP_SUCCESS)) with false. cbv iota.
    destruct (aws_byte_cursor_read_be32 blob2) as [[len2 blob3] |] eqn:R2;
      [| do 4 eexists; split; [reflexivity | auto]].
    apply read_be32_length in R2.
    pose proof (advance_length blob3 len2) as A2.
    destruct (aws_byte_cursor_advance blob3 len2) as [path blob4].
    cbn [snd] in A2.
    cbn [aws_http_message_set_request_path].
    change (negb (AWS_OP_SUCCESS =? AWS_OP_SUCCESS)) with false. cbv iota.
    match goal with
    | |- context [s_unmarshal_http_request_headers ?f ?m ?b ?w0] =>
        destruct (@s_unmarshal_http_request_headers_outcome f m b w0)
          as [r [added [c [w' [Hrun Hend]]]]]; [lia |]
    end.
    rewrite Hrun. do 4 eexists. split; [reflexivity |].
    split; [reflexivity |]. split; [reflexivity |].
    destruct Hend as [[-> [-> ->]] | [-> ->]]; [left | right]; auto.
    repeat split; lia.
  - destruct (aws_byte_cursor_read_be32 request_blob)
      as [[len1 blob1] |] eqn:R1;
      [| do 4 eexists; split; [reflexivity | auto]].
    apply read_be32_length in R1.
    destruct (negb (len1 =? 0));
      [do 4 eexists; split; [reflexivity | auto] |].
    destruct (aws_byte_cursor_read_be32 blob1) as [[len2 blob2] |] eqn:R2;
      [| do 4 eexists; split; [reflexivity | auto]].
    apply read_be32_length in R2.
    destruct (negb (len2 =? 0));
      [do 4 eexists; split; [reflexivity | auto] |].
    match goal with
    | |- context [s_unmarshal_http_request_headers ?f ?m ?b ?w0] =>
        destruct (@s_unmarshal_http_request_headers_outcome f m b w0)
          as [r [added [c [w' [Hrun Hend]]]]]; [lia |]
    end.
    rewrite Hrun. do 4 eexists. split; [reflexivity |].
    split; [reflexivity |]. split; [reflexivity |].
    destruct Hend as [[-> [-> ->]] | [-> ->]]; [left | right]; auto.
    repeat split; lia.
Qed.

(** The two ways decode-in-place ends: the decoding succeeded, on a frame
    of twelve bytes or more, and the body stream is dealt with; or it
    failed, with the invalid-argument error and a Java exception thrown.
    The request that comes back has the version and, unless a stream is
    attached, the body stream it had. *)
Lemma apply_cases (env : JNIEnv) (marshalled_request : list byte)
    (jni_body_stream : option jobject) (message : aws_http_message)
    (w : World) :
  exists m,
    http_version m = http_version message
    /\ body_stream m = body_stream message
    /\ (((12 <= length marshalled_request)%nat
         /\ aws_apply_java_http_request_changes_to_native_request
              env marshalled_request jni_body_stream message w
            = match jni_body_stream with
              | Some stream =>
                  body_stream <-
                    aws_input_stream_new_from_java_http_request_body_stream
                      env (Some stream) ;;
                  ret (AWS_OP_SUCCESS,
                       aws_http_message_set_body_stream m body_stream)
              | None => ret (AWS_OP_SUCCESS, m)
              end w)
        \/ aws_apply_java_http_request_changes_to_native_request
             env marshalled_request jni_body_stream message w
           = Returned (AWS_OP_ERR, m)
               (set_exception true
                  (set_last_error AWS_ERROR_INVALID_ARGUMENT w))).
Proof.
  remember (aws_apply_java_http_request_changes_to_native_request
              env marshalled_request jni_body_stream message w) as A eqn:HA.
  unfold aws_apply_java_http_request_changes_to_native_request,
    s_unmarshal_http_request_to_get_version, bind in HA.
  unfold aws_http_headers_clear, aws_http_message_get_headers in HA.
  destruct (aws_byte_cursor_read_be32 marshalled_request)
    as [[version rest] |] eqn:R.
  - apply read_be32_length in R.
    cbv beta iota delta [ret] in HA.
    destruct (version
              =? version_code
                   (aws_http_message_get_protocol_version
                      (set_headers [] message))); cbn [negb] in HA.
    + destruct (@s_unmarshal_http_request_without_version_outcome
                  (set_headers [] message) rest w)
        as [r [m [c [w' [Hrun [Hv [Hb Hend]]]]]]].
      rewrite Hrun in HA. exists m.
      split; [exact Hv |]. split; [exact Hb |].
      destruct Hend as [[-> [-> [-> Hlen]]] | [-> ->]]; subst A.
      * left. split; [lia |]. destruct jni_body_stream; reflexivity.
      * right. reflexivity.
    + exists (set_headers [] message).
      split; [reflexivity |]. split; [reflexivity |].
      right. subst A. reflexivity.
  - cbv beta iota delta [ret] in HA.
    exists (set_headers [] message).
    split; [reflexivity |]. split; [reflexivity |]. right. subst A.
    destruct message as [v method path hs stream].
    destruct v; try reflexivity.
    unfold s_unmarshal_http_request_without_version.
    cbn -[aws_byte_cursor_read_be32].
    rewrite R. reflexivity.
Qed.

Lemma new_stream_with_vm (env : JNIEnv) (stream : jobject) (w : World) :
  jni_get_java_vm w = 0 ->
  aws_input_stream_new_from_java_http_request_body_stream env (Some stream) w
  = if jni_new_global_ref w (jni_clock w)
    then Returned (Some {| http_request_body_stream := Some stream;
                           body_done := false; is_valid := true |}) (tick w)
    else Returned None (tick (tick w)).
Proof.
  intros Hvm.
  unfold aws_input_stream_new_from_java_http_request_body_stream, GetJavaVM,
    bind, AWS_FATAL_ASSERT.
  rewrite Hvm. cbn.
  destruct (jni_new_global_ref w (jni_clock w)); cbn; [reflexivity |].
  destruct (jni_attach w (S (jni_clock w))); reflexivity.
Qed.

(** X6: decode-in-place always returns, whatever the frame, and never
    changes the version of the request.  It fails only with AWS_OP_ERR, the
    invalid-argument error and a Java exception thrown, and then the body
    stream is the one the request had; it succeeds only on a frame of at
    least twelve bytes, and then raises no error and throws nothing. *)
Theorem decode_in_place_outcome (env : JNIEnv) (marshalled_request : list byte)
    (jni_body_stream : option jobject) (message : aws_http_message)
    (w : World) :
  jni_get_java_vm w = 0 ->
  exists r m w',
    aws_apply_java_http_request_changes_to_native_request
      env marshalled_request jni_body_stream message w
    = Returned (r, m) w'
    /\ http_version m = http_version message
    /\ ((r = AWS_OP_SUCCESS
         /\ (12 <= length marshalled_request)%nat
         /\ last_error w' = last_error w
         /\ jni_exception w' = jni_exception w)
        \/ (r = AWS_OP_ERR
            /\ w' = set_exception true
                      (set_last_error AWS_ERROR_INVALID_ARGUMENT w)
            /\ body_stream m = body_stream message)).
Proof.
  intros Hvm.
  destruct (apply_cases env marshalled_request jni_body_stream message w)
    as [m [Hv [Hb [[Hlen Hrun] | Hrun]]]]; rewrite Hrun.
  - destruct jni_body_stream as [stream |].
    + unfold bind. rewrite (@new_stream_with_vm env stream w Hvm).
      destruct (jni_new_global_ref w (jni_clock w));
        (do 3 eexists; split; [reflexivity |];
         split; [exact Hv |]; left; repeat split; exact Hlen).
    + do 3 eexists. split; [reflexivity |].
      split; [exact Hv |]. left. repeat split. exact Hlen.
  - do 3 eexists. split; [reflexivity |].
    split; [exact Hv |]. right. repeat split. exact Hb.
Qed.

Lemma decode_in_place_outcome_witness :
  exists r m w',
    aws_apply_java_http_request_changes_to_native_request
      jni_env (wire_request (sample_request AWS_HTTP_VERSION_1_1))
      (Some sample_stream) (sample_request AWS_HTTP_VERSION_1_1) world0
    = Returned (r, m) w'
    /\ http_version m = AWS_HTTP_VERSION_1_1.
Proof.
  destruct (@decode_in_place_outcome
              jni_env (wire_request (sample_request AWS_HTTP_VERSION_1_1))
              (Some sample_stream) (sample_request AWS_HTTP_VERSION_1_1)
              world0 eq_refl) as [r [m [w' [Hrun [Hv _]]]]].
  exists r, m, w'. split; [exact Hrun | exact Hv].
Defined.

(** X7: a frame shorter than twelve bytes (a version and two length
    prefixes) is always rejected by decode-in-place, with the
    invalid-argument error and a Java exception thrown, whatever the version
    of the request. *)
Theorem short_frame_rejected (env : JNIEnv) (marshalled_request : list byte)
    (jni_body_stream : option jobject) (message : aws_http_message)
    (w : World) :
  (length marshalled_request < 12)%nat ->
  exists m,
    aws_apply_java_http_request_changes_to_native_request
      env marshalled_request jni_body_stream message w
    = Returned (AWS_OP_ERR, m)
        (set_exception true (set_last_error AWS_ERROR_INVALID_ARGUMENT w))
    /\ http_version m = http_version message
    /\ body_stream m = body_stream message.
Proof.
  intros Hshort.
  destruct (apply_cases env marshalled_request jni_body_stream message w)
    as [m [Hv [Hb [[Hlen Hrun] | Hrun]]]]; [lia |].
  exists m. auto.
Qed.

Lemma short_frame_rejected_witness :
  exists m,
    aws_apply_java_http_request_changes_to_native_request
      jni_env [x00; x00; x00; x02; x00; x00; x00; x00; x00; x00; x00]
      None (sample_request AWS_HTTP_VERSION_1_1) world0
    = Returned (AWS_OP_ERR, m)
        (set_exception true
           (set_last_error AWS_ERROR_INVALID_ARGUMENT world0))
    /\ http_version m = AWS_HTTP_VERSION_1_1
    /\ body_stream m = None.
Proof.
  apply (@short_frame_rejected
           jni_env [x00; x00; x00; x02; x00; x00; x00; x00; x00; x00; x00]
           None (sample_request AWS_HTTP_VERSION_1_1) world0).
  cbn. lia.
Defined.

(** ** Frames that are cut short *)

Lemma read_be32_short (cur : aws_byte_cursor) :
  (length cur < 4)%nat -> aws_byte_cursor_read_be32 cur = None.
Proof.
  intros H. rewrite read_be32_unfold.
  destruct cur as [| b0 [| b1 [| b2 [| b3 rest]]]]; try reflexivity.
  cbn in H. lia.
Qed.

Lemma SIZE_MAX_HALF_value : SIZE_MAX_HALF = 9223372036854775807.
Proof. reflexivity. Qed.

(** X8: a failed decode-in-place is not without effect on the request.  On
    a frame for an HTTP/1 request that ends less than four bytes after the
    method, the call fails with the invalid-argument error, yet the request
    comes back with the method of the frame, on top of its headers being
    cleared. *)
Theorem truncated_after_method_replaces_method (env : JNIEnv)
    (method tail : list byte) (jni_body_stream : option jobject)
    (message : aws_http_message) (w : World) :
  is_http2 (http_version message) = false ->
  fits_uint32 method = true ->
  (length tail < 4)%nat ->
  aws_apply_java_http_request_changes_to_native_request
    env (be32_bytes (version_code (http_version message))
         ++ wire_lp method ++ tail)
    jni_body_stream message w
  = Returned (AWS_OP_ERR,
              {| http_version := http_version message;
                 request_method := method;
                 request_path := request_path message;
                 headers := [];
                 body_stream := body_stream message |})
             (set_exception true
                (set_last_error AWS_ERROR_INVALID_ARGUMENT w)).
Proof.
  intros H2 Hfit Htail.
  assert (Hm : cursor_len method <= UINT32_MAX)
    by (apply Z.leb_le; exact Hfit).
  assert (Ht : cursor_len tail < 4) by (unfold cursor_len; lia).
  pose proof (cursor_len_nonneg tail) as Ht0.
  pose proof (cursor_len_nonneg method) as Hm0.
  assert (Hlen1 : cursor_len (wire_lp method ++ tail) <= SIZE_MAX_HALF).
  { rewrite cursor_len_app, cursor_len_wire_lp, SIZE_MAX_HALF_value.
    unfold UINT32_MAX in Hm. lia. }
  assert (Hlen : cursor_len (be32_bytes (version_code (http_version message))
                             ++ wire_lp method ++ tail) <= SIZE_MAX_HALF).
  { rewrite cursor_len_app, cursor_len_be32, cursor_len_app,
      cursor_len_wire_lp, SIZE_MAX_HALF_value.
    unfold UINT32_MAX in Hm. lia. }
  destruct (read_lp Hfit Hlen1) as [Rm Am].
  unfold aws_apply_java_http_request_changes_to_native_request,
    s_unmarshal_http_request_to_get_version.
  rewrite (read_be32_prefix (version_code_range (http_version message)) Hlen).
  unfold bind at 1. unfold ret at 1. cbv iota beta.
  unfold aws_http_headers_clear, aws_http_message_get_headers.
  replace (version_code (http_version message)
           =? version_code (aws_http_message_get_protocol_version
                              (set_headers [] message))) with true
    by (symmetry; apply Z.eqb_refl).
  cbn [negb].
  unfold s_unmarshal_http_request_without_version.
  cbn [aws_http_message_get_protocol_version set_headers http_version].
  rewrite H2. cbn [negb].
  rewrite Rm, Am. cbn [aws_http_message_set_request_method].
  change (negb (AWS_OP_SUCCESS =? AWS_OP_SUCCESS)) with false. cbv iota.
  rewrite (read_be32_short tail Htail). reflexivity.
Qed.

Lemma truncated_after_method_replaces_method_witness :
  aws_apply_java_http_request_changes_to_native_request
    jni_env (be32_bytes 2 ++ wire_lp ["P"; "U"; "T"]%byte ++ [x00; x00; x00])
    None (sample_request AWS_HTTP_VERSION_1_1) world0
  = Returned (AWS_OP_ERR,
              {| http_version := AWS_HTTP_VERSION_1_1;
                 request_method := ["P"; "U"; "T"]%byte;
                 request_path := ["/"; "a"]%byte;
                 headers := [];
                 body_stream := None |})
             (set_exception true
                (set_last_error AWS_ERROR_INVALID_ARGUMENT world0)).
Proof.
  apply (@truncated_after_method_replaces_method
           jni_env ["P"; "U"; "T"]%byte [x00; x00; x00] None
           (sample_request AWS_HTTP_VERSION_1_1) world0);
    [reflexivity | reflexivity | cbn; lia].
Defined.

(** ** Whole frames *)

(** What follows the version in the frame of a request is read back into a
    request of the same version that has no headers. *)
Lemma s_unmarshal_http_request_without_version_wire
    (r dst : aws_http_message) (w : World) :
  request_fits r = true ->
  http2_fields_empty r = true ->
  http_version dst = http_version r ->
  http2_fields_empty dst = true ->
  headers dst = [] ->
  s_unmarshal_http_request_without_version
    dst (wire_lp (request_method r) ++ wire_lp (request_path r)
         ++ wire_headers (headers r)) w
  = Returned (AWS_OP_SUCCESS, decoded_into dst r, []) w.
Proof.
  unfold request_fits. intros Hfit Hr2 Hversion Hdst2 Hnone.
  apply andb_prop in Hfit. destruct Hfit as [Hfit Hlen].
  apply andb_prop in Hfit. destruct Hfit as [Hfit Hhs].
  apply andb_prop in Hfit. destruct Hfit as [Hm Hp].
  apply Z.leb_le in Hlen. unfold wire_request in Hlen.
  assert (Hlen1 : cursor_len (wire_lp (request_method r)
                              ++ wire_lp (request_path r)
                              ++ wire_headers (headers r)) <= SIZE_MAX_HALF).
  { rewrite cursor_len_app, cursor_len_be32 in Hlen. lia. }
  assert (Hlen2 : cursor_len (wire_lp (request_path r)
                              ++ wire_headers (headers r)) <= SIZE_MAX_HALF).
  { rewrite cursor_len_app, cursor_len_wire_lp in Hlen1.
    pose proof (cursor_len_nonneg (request_method r)). lia. }
  assert (Hlen3 : cursor_len (wire_headers (headers r)) <= SIZE_MAX_HALF).
  { rewrite cursor_len_app, cursor_len_wire_lp in Hlen2.
    pose proof (cursor_len_nonneg (request_path r)). lia. }
  destruct (read_lp Hm Hlen1) as [Rm Am].
  destruct (read_lp Hp Hlen2) as [Rp Ap].
  unfold s_unmarshal_http_request_without_version.
  unfold aws_http_message_get_protocol_version.
  destruct (is_http2 (http_version dst)) eqn:H2; cbn [negb].
  - assert (H2r : is_http2 (http_version r) = true)
      by (rewrite <- Hversion; exact H2).
    destruct (http2_fields_empty_inv _ Hr2 H2r) as [Emr Epr].
    destruct (http2_fields_empty_inv _ Hdst2 H2) as [Emd Epd].
    rewrite Emr, Epr in *.
    change (cursor_len []) with 0 in Rm, Rp. cbn [app] in Rm, Rp.
    rewrite Rm. change (negb (0 =? 0)) with false. cbv iota.
    rewrite Rp. change (negb (0 =? 0)) with false. cbv iota.
    rewrite s_unmarshal_http_request_headers_wire
      by (try assumption; pose proof (wire_headers_length (headers r)); lia).
    rewrite Hnone. cbn [app].
    clear - Hversion Emr Epr Emd Epd.
    destruct dst, r; cbn in *; subst; reflexivity.
  - rewrite Rm, Am. cbn [aws_http_message_set_request_method].
    change (negb (AWS_OP_SUCCESS =? AWS_OP_SUCCESS)) with false. cbv iota.
    rewrite Rp, Ap. cbn [aws_http_message_set_request_path].
    change (negb (AWS_OP_SUCCESS =? AWS_OP_SUCCESS)) with false. cbv iota.
    rewrite s_unmarshal_http_request_headers_wire
      by (try assumption; pose proof (wire_headers_length (headers r)); lia).
    cbn [headers]. rewrite Hnone. cbn [app].
    unfold decoded_into, set_headers. cbn. rewrite <- Hversion. reflexivity.
Qed.

Lemma fresh_http1_is_not_http2 (http1 : aws_http_version) :
  is_http2 http1 = false ->
  (version_code http1 =? version_code AWS_HTTP_VERSION_2) = false.
Proof. intros H. exact H. Qed.



(** X10: a request is built back from its frame: when its version is
    HTTP/2 (with the empty method and path of such a frame) or the version of
    the engine's HTTP/1 requests, the request built from its frame without a
    producer handle has its method, path and headers, and no body stream. *)
Theorem request_built_from_its_frame (http1 : aws_http_version) (env : JNIEnv)
    (r : aws_http_message) (w : World) :
  request_fits r = true ->
  http2_fields_empty r = true ->
  is_http2 http1 = false ->
  http_version r = AWS_HTTP_VERSION_2 \/ http_version r = http1 ->
  aws_http_request_new_from_java_http_request http1 env (wire_request r) None w
  = Returned (Some (aws_http_message_set_body_stream r None)) w.
Proof.
  intros Hfit Hr2 H1 Hkind.
  pose proof Hfit as Hlen. unfold request_fits in Hlen.
  apply andb_prop in Hlen. destruct Hlen as [_ Hlen]. apply Z.leb_le in Hlen.
  unfold aws_http_request_new_from_java_http_request,
    s_unmarshal_http_request_to_get_version.
  unfold wire_request at 1.
  rewrite (read_be32_prefix (version_code_range (http_version r)) Hlen).
  unfold bind at 1. unfold ret at 1. cbv iota beta.
  destruct Hkind as [Hv | Hv].
  - rewrite Hv. change (version_code AWS_HTTP_VERSION_2
                        =? version_code AWS_HTTP_VERSION_2) with true.
    cbv iota.
    change (negb (version_code AWS_HTTP_VERSION_2
                  =? version_code (aws_http_message_get_protocol_version
                                     aws_http2_message_new_request)))
      with false.
    cbv iota. unfold bind.
    rewrite (@s_unmarshal_http_request_without_version_wire
               r aws_http2_message_new_request w Hfit Hr2
               (eq_sym Hv) eq_refl eq_refl).
    cbn [negb Z.eqb AWS_OP_SUCCESS]. unfold ret.
    destruct r; reflexivity.
  - rewrite Hv. rewrite (fresh_http1_is_not_http2 _ H1). cbv iota.
    replace (version_code http1
             =? version_code (aws_http_message_get_protocol_version
                                (aws_http_message_new_request http1)))
      with true by (symmetry; apply Z.eqb_refl).
    cbn [negb]. unfold bind.
    assert (Hempty : http2_fields_empty (aws_http_message_new_request http1)
                     = true).
    { unfold http2_fields_empty. cbn. rewrite H1. reflexivity. }
    rewrite (@s_unmarshal_http_request_without_version_wire
               r (aws_http_message_new_request http1) w Hfit Hr2
               (eq_sym Hv) Hempty eq_refl).
    cbn [negb Z.eqb AWS_OP_SUCCESS]. unfold ret.
    destruct r; reflexivity.
Qed.

Lemma request_built_from_its_frame_witness :
  aws_http_request_new_from_java_http_request
    AWS_HTTP_VERSION_1_1 jni_env
    (wire_request (sample_request AWS_HTTP_VERSION_1_1)) None world0
  = Returned (Some (sample_request AWS_HTTP_VERSION_1_1)) world0
  /\ aws_http_request_new_from_java_http_request
       AWS_HTTP_VERSION_1_1 jni_env
       (wire_request sample_http2_request) None world0
     = Returned (Some sample_http2_request) world0.
Proof.
  split.
  - apply (@request_built_from_its_frame
             AWS_HTTP_VERSION_1_1 jni_env
             (sample_request AWS_HTTP_VERSION_1_1) world0);
      [reflexivity | reflexivity | reflexivity | right; reflexivity].
  - apply (@request_built_from_its_frame
             AWS_HTTP_VERSION_1_1 jni_env sample_http2_request world0);
      [reflexivity | reflexivity | reflexivity | left; reflexivity].
Defined.



(** X12: a frame whose version is neither HTTP/2 nor the version of the
    engine's HTTP/1 requests cannot be built into a request: NULL comes back,
    with the invalid-argument error and a Java exception thrown. *)
Theorem frame_of_other_version_not_built (http1 : aws_http_version)
    (env : JNIEnv) (b0 b1 b2 b3 : byte) (rest : list byte)
    (jni_body_stream : option jobject) (w : World) :
  be32_value b0 b1 b2 b3 <> version_code AWS_HTTP_VERSION_2 ->
  be32_value b0 b1 b2 b3 <> version_code http1 ->
  aws_http_request_new_from_java_http_request
    http1 env (b0 :: b1 :: b2 :: b3 :: rest) jni_body_stream w
  = Returned None
      (set_exception true (set_last_error AWS_ERROR_INVALID_ARGUMENT w)).
Proof.
  intros Hn2 Hn1.
  unfold aws_http_request_new_from_java_http_request,
    s_unmarshal_http_request_to_get_version, bind.
  rewrite read_be32_unfold.
  destruct (SIZE_MAX_HALF <? cursor_len (b0 :: b1 :: b2 :: b3 :: rest)) eqn:G.
  - clear Hn1 Hn2. destruct http1; try reflexivity.
    unfold s_unmarshal_http_request_without_version.
    cbn -[cursor_len aws_byte_cursor_read_be32].
    rewrite read_be32_unfold, G. reflexivity.
  - apply Z.eqb_neq in Hn2, Hn1.
    cbv beta iota delta [ret]. rewrite Hn2. cbv iota.
    unfold aws_http_message_get_protocol_version, aws_http_message_new_request.
    cbn [http_version]. rewrite Hn1. reflexivity.
Qed.

Lemma frame_of_other_version_not_built_witness :
  aws_http_request_new_from_java_http_request
    AWS_HTTP_VERSION_1_1 jni_env
    (wire_request (sample_request AWS_HTTP_VERSION_1_0)) None world0
  = Returned None
      (set_exception true
         (set_last_error AWS_ERROR_INVALID_ARGUMENT world0)).
Proof.
  apply (@frame_of_other_version_not_built
           AWS_HTTP_VERSION_1_1 jni_env x00 x00 x00 x01);
    vm_compute; discriminate.
Defined.

(** X13: a request whose fields fit is handed to the Java constructor as
    its frame, with the body stream given.  When the constructor raises,
    NULL comes back; the exception is cleared and the callback-failure error
    raised. *)
Theorem java_request_holds_frame (env : JNIEnv) (r : aws_http_message)
    (request_body_stream : option jobject) (w : World) :
  request_fits r = true ->
  let o := jni_callback w (jni_clock w) in
  exists w',
    aws_java_http_request_from_native env r request_body_stream w
    = Returned (if threw o then None
                else Some {| marshalled := wire_request r;
                             java_body_stream := request_body_stream |}) w'
    /\ jni_exception w' = false
    /\ jni_invoked w' = jni_invoked w
    /\ last_error w'
       = (if jni_exception w || threw o
          then AWS_ERROR_HTTP_CALLBACK_FAILURE else last_error w).
Proof.
  intros Hfit o.
  destruct (@s_marshall_http_request_wire r 1024 w Hfit) as [cap Hm].
  unfold aws_java_http_request_from_native.
  change (negb (AWS_OP_SUCCESS =? 0)) with false. cbv iota.
  unfold bind at 1. rewrite Hm. cbn [negb Z.eqb AWS_OP_SUCCESS].
  unfold bind, NewObject_HttpRequest, aws_jni_direct_byte_buffer_from_raw_ptr,
    buf_len.
  cbn [buffer bb_capacity]. rewrite Nat2Z.id, firstn_all. fold o.
  unfold aws_jni_check_and_clear_exception.
  cbn [jni_exception set_exception].
  destruct (jni_exception w || threw o); cbn;
    eexists; (split; [reflexivity |]); repeat split.
Qed.

Lemma java_request_holds_frame_witness :
  exists w',
    aws_java_http_request_from_native
      jni_env (sample_request AWS_HTTP_VERSION_1_1) (Some sample_stream) world0
    = Returned
        (Some {| marshalled :=
                   wire_request (sample_request AWS_HTTP_VERSION_1_1);
                 java_body_stream := Some sample_stream |}) w'.
Proof.
  destruct (@java_request_holds_frame
              jni_env (sample_request AWS_HTTP_VERSION_1_1)
              (Some sample_stream) world0 eq_refl) as [w' [H _]].
  exists w'. exact H.
Defined.

(** ** Header frames *)

Lemma wire_headers_app (hs1 hs2 : list aws_http_header) :
  wire_headers (hs1 ++ hs2) = wire_headers hs1 ++ wire_headers hs2.
Proof. unfold wire_headers. apply flat_map_app. Qed.

Lemma marshalled_headers_are_read_back_witness :
  exists buf,
    aws_marshal_http_headers_to_dynamic_buffer
      (aws_byte_buf_init 16) sample_headers world0
    = Returned (AWS_OP_SUCCESS, buf) world0
    /\ aws_http_headers_new_from_java_http_headers jni_env (buffer buf) world0
       = Returned (Some sample_headers) world0.
Proof.
  apply (@marshalled_headers_are_read_back
           jni_env sample_headers 16 world0 world0);
    vm_compute; [reflexivity | discriminate].
Defined.

(** X15: the dynamic buffer accumulates frames: marshalling one header
    list and then another into the same buffer succeeds, keeps what the
    buffer held, and the buffer then decodes to the first list followed by
    the second. *)
Theorem marshalling_headers_accumulates (env : JNIEnv)
    (hs1 hs2 : list aws_http_header) (cap : Z) (w w1 : World) :
  forallb header_fits (hs1 ++ hs2) = true ->
  cursor_len (wire_headers (hs1 ++ hs2)) <= SIZE_MAX_HALF ->
  exists buf1 buf2,
    aws_marshal_http_headers_to_dynamic_buffer (aws_byte_buf_init cap) hs1 w
    = Returned (AWS_OP_SUCCESS, buf1) w
    /\ aws_marshal_http_headers_to_dynamic_buffer buf1 hs2 w
       = Returned (AWS_OP_SUCCESS, buf2) w
    /\ buffer buf2 = buffer buf1 ++ wire_headers hs2
    /\ aws_http_headers_new_from_java_http_headers env (buffer buf2) w1
       = Returned (Some (hs1 ++ hs2)) w1.
Proof.
  intros Hfit Hlen.
  pose proof Hfit as Hfit12.
  rewrite forallb_app in Hfit. apply andb_prop in Hfit.
  destruct Hfit as [Hfit1 Hfit2].
  pose proof Hlen as Hlen12.
  rewrite wire_headers_app, cursor_len_app in Hlen.
  pose proof (cursor_len_nonneg (wire_headers hs1)) as H1.
  pose proof (cursor_len_nonneg (wire_headers hs2)) as H2.
  destruct (@aws_marshal_http_headers_to_dynamic_buffer_wire
              hs1 (aws_byte_buf_init cap) w Hfit1) as [cap1 Hm1].
  { change (buf_len (aws_byte_buf_init cap)) with 0. lia. }
  cbn [buffer aws_byte_buf_init app] in Hm1.
  destruct (@aws_marshal_http_headers_to_dynamic_buffer_wire
              hs2 {| buffer := wire_headers hs1; capacity := cap1 |} w Hfit2)
    as [cap2 Hm2].
  { unfold buf_len. cbn [buffer]. fold (cursor_len (wire_headers hs1)). lia. }
  cbn [buffer] in Hm2.
  do 2 eexists. split; [exact Hm1 |]. split; [exact Hm2 |].
  split; [reflexivity |]. cbn [buffer].
  unfold aws_http_headers_new_from_java_http_headers,
    s_unmarshal_http_headers, bind.
  rewrite <- wire_headers_app.
  rewrite s_unmarshal_http_headers_loop_wire
    by (try assumption; pose proof (wire_headers_length (hs1 ++ hs2)); lia).
  reflexivity.
Qed.

Lemma marshalling_headers_accumulates_witness :
  exists buf1 buf2,
    aws_marshal_http_headers_to_dynamic_buffer
      (aws_byte_buf_init 0) sample_headers world0
    = Returned (AWS_OP_SUCCESS, buf1) world0
    /\ aws_marshal_http_headers_to_dynamic_buffer buf1 sample_headers world0
       = Returned (AWS_OP_SUCCESS, buf2) world0
    /\ buffer buf2 = buffer buf1 ++ wire_headers sample_headers
    /\ aws_http_headers_new_from_java_http_headers jni_env (buffer buf2) world0
       = Returned (Some (sample_headers ++ sample_headers)) world0.
Proof.
  apply (@marshalling_headers_accumulates
           jni_env sample_headers sample_headers 0 world0 world0);
    vm_compute; [reflexivity | discriminate].
Defined.

(** Decoding the frames of a header list followed by more bytes is decoding
    those bytes after the headers of the list. *)
Lemma s_unmarshal_http_headers_loop_wire_app (hs : list aws_http_header) :
  forall (fuel : nat) (before : aws_http_headers) (rest : list byte)
         (w : World),
    forallb header_fits hs = true ->
    cursor_len (wire_headers hs ++ rest) <= SIZE_MAX_HALF ->
    s_unmarshal_http_headers_loop (length hs + fuel) before
                                  (wire_headers hs ++ rest) w
    = s_unmarshal_http_headers_loop fuel (before ++ hs) rest w.
Proof.
  induction hs as [| h hs IH]; intros fuel before rest w Hfit Hlen.
  - cbn [length wire_headers flat_map app Nat.add]. rewrite app_nil_r.
    reflexivity.
  - cbn [forallb] in Hfit. apply andb_prop in Hfit. destruct Hfit as [Hh Hhs].
    unfold header_fits in Hh. apply andb_prop in Hh. destruct Hh as [Hn Hv].
    cbn [wire_headers flat_map] in *. fold (wire_headers hs) in *.
    unfold wire_header in *. rewrite <- !app_assoc in *.
    assert (Hlen2 : cursor_len (wire_lp (value h) ++ wire_headers hs ++ rest)
                    <= SIZE_MAX_HALF).
    { rewrite cursor_len_app, cursor_len_wire_lp in Hlen.
      pose proof (cursor_len_nonneg (name h)). lia. }
    assert (Hlen3 : cursor_len (wire_headers hs ++ rest) <= SIZE_MAX_HALF).
    { rewrite cursor_len_app, cursor_len_wire_lp in Hlen2.
      pose proof (cursor_len_nonneg (value h)). lia. }
    assert (Hnz : (cursor_len (wire_lp (name h) ++ wire_lp (value h)
                                ++ wire_headers hs ++ rest) =? 0) = false).
    { apply Z.eqb_neq. rewrite cursor_len_app, cursor_len_wire_lp.
      pose proof (cursor_len_nonneg (name h)).
      pose proof (cursor_len_nonneg
                    (wire_lp (value h) ++ wire_headers hs ++ rest)).
      lia. }
    cbn [length Nat.add s_unmarshal_http_headers_loop]. rewrite Hnz.
    destruct (read_lp Hn Hlen) as [R1 A1]. rewrite R1, A1.
    destruct (read_lp Hv Hlen2) as [R2 A2]. rewrite R2, A2.
    cbn [aws_http_headers_add_header].
    rewrite (IH fuel _ rest w Hhs Hlen3).
    rewrite <- app_assoc. cbn [app]. destruct h as [n v]. reflexivity.
Qed.

(** X16: one to three stray bytes after well-formed header frames make the
    whole decode fail with the invalid-argument error, after the headers in
    front of them have been added to the set. *)
Theorem trailing_bytes_rejected (hs before : list aws_http_header)
    (tail : list byte) (w : World) :
  forallb header_fits hs = true ->
  cursor_len (wire_headers hs ++ tail) <= SIZE_MAX_HALF ->
  (0 < length tail < 4)%nat ->
  s_unmarshal_http_headers before (wire_headers hs ++ tail) w
  = Returned (AWS_OP_ERR, before ++ hs, tail)
             (set_last_error AWS_ERROR_INVALID_ARGUMENT w).
Proof.
  intros Hfit Hlen Htail.
  unfold s_unmarshal_http_headers.
  pose proof (wire_headers_length hs) as Hw.
  replace (S (length (wire_headers hs ++ tail)))
    with (length hs + S (length (wire_headers hs ++ tail) - length hs))%nat
    by (rewrite length_app; lia).
  rewrite s_unmarshal_http_headers_loop_wire_app by assumption.
  cbn [s_unmarshal_http_headers_loop].
  assert (Hnz : (cursor_len tail =? 0) = false)
    by (apply Z.eqb_neq; unfold cursor_len; lia).
  rewrite Hnz, read_be32_short by lia. reflexivity.
Qed.

Lemma trailing_bytes_rejected_witness :
  s_unmarshal_http_headers [] (wire_headers sample_headers ++ [x00; x00]) world0
  = Returned (AWS_OP_ERR, sample_headers, [x00; x00])
             (set_last_error AWS_ERROR_INVALID_ARGUMENT world0).
Proof.
  apply (@trailing_bytes_rejected sample_headers [] [x00; x00] world0);
    [reflexivity | vm_compute; discriminate | cbn; lia].
Defined.

(** ** Lengths that run past the end *)

Lemma advance_zero (cursor : aws_byte_cursor) :
  aws_byte_cursor_advance cursor 0 = ([], cursor).
Proof.
  unfold aws_byte_cursor_advance. destruct (_ || _); reflexivity.
Qed.

Lemma read_be32_of_bytes (x : Z) (rest : aws_byte_cursor) :
  0 <= x <= UINT32_MAX ->
  aws_byte_cursor_read_be32 (be32_bytes x ++ rest)
  = if SIZE_MAX_HALF <? 4 + cursor_len rest then None else Some (x, rest).
Proof.
  intros Hx.
  destruct (be32_value_bytes Hx) as [b0 [b1 [b2 [b3 [Hb Hv]]]]].
  rewrite Hb, read_be32_unfold. cbn [app].
  rewrite !cursor_len_cons, Hv.
  replace (1 + (1 + (1 + (1 + cursor_len rest)))) with (4 + cursor_len rest)
    by lia.
  reflexivity.
Qed.

(** X17: a length prefix that asks for more bytes than are left is read as
    if it were zero.  On a frame no longer than SIZE_MAX/2, the header
    decoder gives the same result, headers, cursor and error included, on a
    frame that starts with the length L of a name and has fewer than L bytes
    after it as on the frame with that length replaced by 0; so does the
    request decoder for the length of the method. *)
Theorem over_length_prefix_read_as_zero (len : Z) (tail : list byte)
    (w : World) :
  cursor_len tail < len ->
  len <= UINT32_MAX ->
  4 + cursor_len tail <= SIZE_MAX_HALF ->
  (forall hs,
      s_unmarshal_http_headers hs (be32_bytes len ++ tail) w
      = s_unmarshal_http_headers hs (be32_bytes 0 ++ tail) w)
  /\ (forall message,
        is_http2 (http_version message) = false ->
        s_unmarshal_http_request_without_version
          message (be32_bytes len ++ tail) w
        = s_unmarshal_http_request_without_version
            message (be32_bytes 0 ++ tail) w).
Proof.
  intros Hover Hmax Hsize.
  pose proof (cursor_len_nonneg tail) as Ht.
  assert (Hlen : 0 <= len <= UINT32_MAX) by lia.
  assert (Hzero : 0 <= 0 <= UINT32_MAX) by (unfold UINT32_MAX; lia).
  apply Z.ltb_ge in Hsize.
  split.
  - intros hs. unfold s_unmarshal_http_headers.
    rewrite !length_app.
    change (length (be32_bytes len)) with 4%nat.
    change (length (be32_bytes 0)) with 4%nat.
    cbn [Nat.add s_unmarshal_http_headers_loop].
    rewrite !cursor_len_app, !cursor_len_be32.
    destruct (4 + cursor_len tail =? 0) eqn:E; [apply Z.eqb_eq in E; lia |].
    rewrite (read_be32_of_bytes tail Hlen), (read_be32_of_bytes tail Hzero).
    rewrite Hsize.
    rewrite (advance_past_end tail Hover), advance_zero. reflexivity.
  - intros message H2.
    unfold s_unmarshal_http_request_without_version.
    unfold aws_http_message_get_protocol_version. rewrite H2. cbn [negb].
    rewrite (read_be32_of_bytes tail Hlen), (read_be32_of_bytes tail Hzero).
    rewrite Hsize.
    rewrite (advance_past_end tail Hover), advance_zero. reflexivity.
Qed.

Lemma over_length_prefix_read_as_zero_witness :
  s_unmarshal_http_headers [] (be32_bytes 5 ++ [x00; x00; x00; x00]) world0
  = s_unmarshal_http_headers [] (be32_bytes 0 ++ [x00; x00; x00; x00]) world0.
Proof.
  apply (proj1 (@over_length_prefix_read_as_zero
                  5 [x00; x00; x00; x00] world0 eq_refl
                  ltac:(vm_compute; discriminate)
                  ltac:(vm_compute; discriminate))).
Defined.
